(** * N-gram language model of [notebooks/ngram_model.ipynb]

    A shallow embedding of the notebook's [Corpus], [NgramModel] and
    [cross_ent], with the Python primitives they rely on (indexing, slicing,
    [range], [collections.Counter], the global NumPy random source) written
    out, and the properties of the specification stated over them. *)

From Stdlib Require Import ZArith QArith Qreals Reals Lia.
From stdpp Require Import gmap strings list fin_maps.

Local Open Scope Z_scope.

(** ** Python primitives *)

Module Py.

(** The exceptions the notebook's code can raise. *)
Inductive exn := ValueError | TypeError | ZeroDivisionError | IndexError.

Inductive result (A : Type) :=
| Ok (a : A)
| Raise (e : exn).
Arguments Ok {A} a.
Arguments Raise {A} e.

Definition bind {A B} (r : result A) (k : A → result B) : result B :=
  match r with
  | Ok a => k a
  | Raise e => Raise e
  end.

(** A comprehension [[f x for x in l]] whose body may raise. *)
Fixpoint for_each {A B} (f : A → result B) (l : list A) : result (list B) :=
  match l with
  | [] => Ok []
  | x :: l' =>
      bind (f x) (λ y, bind (for_each f l') (λ ys, Ok (y :: ys)))
  end.

(** [len(l)] *)
Definition len {A} (l : list A) : Z := Z.of_nat (length l).

(** [range(n)] *)
Definition range (n : Z) : list Z := seqZ 0 n.

(** [l[i]]: a negative index counts from the end, an index out of range
    raises [IndexError]. *)
Definition getitem {A} (l : list A) (i : Z) : result A :=
  let j := if i <? 0 then i + len l else i in
  if (j <? 0) || (len l <=? j) then Raise IndexError
  else match l !! Z.to_nat j with
       | Some x => Ok x
       | None => Raise IndexError
       end.

(** The bound of a slice, clamped the way Python does it. *)
Definition clamp {A} (l : list A) (i : Z) : nat :=
  Z.to_nat (if i <? 0 then Z.max 0 (i + len l) else Z.min i (len l)).

(** [l[start:]] *)
Definition slice_from {A} (l : list A) (start : Z) : list A :=
  drop (clamp l start) l.

(** [l[0:stop]] *)
Definition slice_to {A} (l : list A) (stop : Z) : list A :=
  take (clamp l stop) l.

End Py.

Import Py.

Notation "'let*' x ':=' r 'in' k" := (Py.bind r (λ x, k))
  (at level 10, x name, r at level 100, k at level 200, only parsing).

(** ** The random source

    [np.random.random()] reads the next sample of the seeded generator and
    advances it.  The generator is the sequence of its samples and a cursor. *)

Record rng := { draws : nat → Q; cursor : nat }.

Definition random (st : rng) : Q * rng :=
  (draws st (cursor st), {| draws := draws st; cursor := S (cursor st) |}).

(** [a >= b] and [a < b] on samples *)
Definition Qge_bool (a b : Q) : bool := Qle_bool b a.
Definition Qlt_bool (a b : Q) : bool := negb (Qle_bool b a).

(** ** Corpus *)

Definition token := string.
Definition sentence := list token.
Definition ngram := list token.

Module Corpus.

(** [doc] is the tokenized document as the sequence of its sentences
    ([doc.sents]); iterating over [doc] itself gives the tokens of all
    sentences in order. *)
Record t := {
  test_percentage : Q;
  doc : list sentence
}.

Definition get_words (self : t) : list token := concat (doc self).

(** The condition of [get_sentences],
    [(random() >= p and not test) or (random() < p and test)],
    with Python's left-to-right, short-circuit evaluation. *)
Definition selected (p : Q) (test : bool) (st : rng) : bool * rng :=
  let '(r1, st1) := random st in
  if Qge_bool r1 p && negb test then (true, st1)
  else
    let '(r2, st2) := random st1 in
    (Qlt_bool r2 p && test, st2).

Fixpoint get_sentences_loop (p : Q) (test : bool) (sents : list sentence)
    (st : rng) : list sentence * rng :=
  match sents with
  | [] => ([], st)
  | sent :: rest =>
      let '(keep, st1) := selected p test st in
      let '(out, st2) := get_sentences_loop p test rest st1 in
      (if keep then sent :: out else out, st2)
  end.

Definition get_sentences (self : t) (test : bool) (st : rng)
    : list sentence * rng :=
  get_sentences_loop (test_percentage self) test (doc self) st.

(** The tuple of [sent[pos+i].text for i in range(n)]. *)
Definition ngram_at (sent : sentence) (pos n : Z) : result ngram :=
  for_each (λ i, getitem sent (pos + i)) (range n).

(** The loop [for pos in range(len(sent))] with its [break]. *)
Fixpoint ngram_positions (sent : sentence) (n : Z) (positions : list Z)
    : result (list ngram) :=
  match positions with
  | [] => Ok []
  | pos :: rest =>
      if len sent - pos <? n then Ok []
      else
        let* g := ngram_at sent pos n in
        let* gs := ngram_positions sent n rest in
        Ok (g :: gs)
  end.

(** The body of the outer loop of [get_ngrams] for one sentence. *)
Definition sentence_ngrams (n : Z) (sent : sentence) : result (list ngram) :=
  if len sent <? 10 then Ok []
  else ngram_positions sent n (range (len sent)).

(** A raised exception carries no random state. *)
Definition get_ngrams (self : t) (n : Z) (test : bool) (st : rng)
    : result (list ngram * rng) :=
  let '(sents, st') := get_sentences self test st in
  let* gss := for_each (sentence_ngrams n) sents in
  Ok (concat gss, st').

End Corpus.

(** ** collections.Counter *)

Abbreviation Counter := (gmap ngram Z).

(** [c[g]]: a missing key reads as 0 and, unlike in a [defaultdict], is not
    stored; the counter is handed back as it was. *)
Definition Counter_getitem (c : Counter) (g : ngram) : Z * Counter :=
  (default 0 (c !! g), c).

Definition count_of (c : Counter) (g : ngram) : Z := fst (Counter_getitem c g).

(** [Counter(iterable)] counts one element after the other:
    [self[elem] = self.get(elem, 0) + 1]. *)
Definition Counter_add (c : Counter) (g : ngram) : Counter :=
  <[g := default 0 (c !! g) + 1]> c.

Definition Counter_of (gs : list ngram) : Counter := foldl Counter_add ∅ gs.

(** ** NgramModel *)

Module NgramModel.

Record t := {
  n : Z;
  ngrams : option Counter;
  alphabet : option (gset token)
}.

(** [__init__] *)
Definition init (n : Z) : t :=
  {| n := n; ngrams := None; alphabet := None |}.

Definition learn (self : t) (corpus : Corpus.t) (st : rng)
    : result (t * rng) :=
  let* out := Corpus.get_ngrams corpus (n self) false st in
  let '(grams, st') := out in
  Ok ({| n := n self;
         ngrams := Some (Counter_of grams);
         alphabet := Some (list_to_set (Corpus.get_words corpus)) |}, st').

(** The first two statements of [predict] after the length check:
    [if len(context) >= self.n: context = context[-self.n + 1:]]. *)
Definition truncate (n : Z) (context : list token) : list token :=
  if n <=? len context then slice_from context (- n + 1) else context.

(** The loop over [self.alphabet] that fills [matches].  [self.ngrams] is
    threaded through the lookups; indexing [None] raises [TypeError]. *)
Fixpoint matches_loop (ngrams : option Counter) (context : list token)
    (words : list token) (matches : gmap token Z)
    : result (gmap token Z) * option Counter :=
  match words with
  | [] => (Ok matches, ngrams)
  | word :: rest =>
      match ngrams with
      | None => (Raise TypeError, ngrams)
      | Some c =>
          let '(count, c') := Counter_getitem c (context ++ [word]) in
          matches_loop (Some c') context rest
            (if 0 <? count then <[word := count]> matches else matches)
      end
  end.

(** [sum(values, 0.0)] *)
Definition sum_float (values : list Z) : Q :=
  foldl (λ acc v, acc + inject_Z v)%Q 0%Q values.

(** [v / total_count], an integer divided by a float. *)
Definition truediv (v : Z) (total_count : Q) : result Q :=
  if Qeq_bool total_count 0 then Raise ZeroDivisionError
  else Ok (inject_Z v / total_count)%Q.

(** [{k: v / total_count for k, v in matches.items()}] *)
Definition normalize (matches : gmap token Z) (total_count : Q)
    : result (gmap token Q) :=
  let* items :=
    for_each (λ kv, let* q := truediv (snd kv) total_count in
                    Ok (fst kv, q))
             (map_to_list matches) in
  Ok (list_to_map items).

(** [predict] hands back, next to its result, the model and the list object
    the caller passed, as they are when the call ends. *)
Definition predict (self : t) (context : list token)
    : result (gmap token Q) * (t * list token) :=
  let caller_context := context in
  if len context <? n self - 1 then
    (Raise ValueError, (self, caller_context))
  else
    let context := truncate (n self) context in
    match alphabet self with
    | None => (Raise TypeError, (self, caller_context))
    | Some words =>
        let '(r, ngrams') :=
          matches_loop (ngrams self) context (elements words) ∅ in
        let self' :=
          {| n := n self; ngrams := ngrams'; alphabet := alphabet self |} in
        (let* matches := r in
         let total_count := sum_float (snd <$> map_to_list matches) in
         normalize matches total_count,
         (self', caller_context))
    end.

(** [predict_str]; [nlp] is the external tokenizer. *)
Definition predict_str (nlp : string → list token) (self : t)
    (context_str : string) : result (gmap token Q) * (t * string) :=
  let context := nlp context_str in
  let '(r, (self', _)) := predict self context in
  (r, (self', context_str)).

End NgramModel.

(** ** Cross-entropy evaluation

    The score is a floating-point number.  Its arithmetic is kept abstract:
    [fsub] is float subtraction, [fdiv_int] the division of a float by an
    integer, [log2] is [np.log2] on a probability. *)

Class FloatOps := {
  num : Type;
  fzero : num;
  fsub : num → num → num;
  fdiv_int : num → Z → num;
  log2 : Q → num
}.

Section CrossEntropy.
Context {F : FloatOps}.

(** The accumulator starts as the Python float [0.0] and becomes a
    [numpy.float64] with the first [np.log2] subtracted from it. *)
Inductive pyfloat :=
| PyFloat (x : num)
| NpFloat64 (x : num).

Definition float_value (a : pyfloat) : num :=
  match a with PyFloat x | NpFloat64 x => x end.

(** [a -= np.log2(p)] *)
Definition isub_log2 (a : pyfloat) (p : Q) : pyfloat :=
  NpFloat64 (fsub (float_value a) (log2 p)).

(** [a /= count]: a Python float divided by zero raises; a
    [numpy.float64] does not. *)
Definition idiv_int (a : pyfloat) (count : Z) : result pyfloat :=
  match a with
  | PyFloat x =>
      if count =? 0 then Raise ZeroDivisionError
      else Ok (PyFloat (fdiv_int x count))
  | NpFloat64 x => Ok (NpFloat64 (fdiv_int x count))
  end.

Fixpoint cross_ent_loop (model : NgramModel.t) (n : Z) (grams : list ngram)
    (cross_ent : pyfloat) (count : Z) : result (pyfloat * Z) :=
  match grams with
  | [] => Ok (cross_ent, count)
  | ngram :: rest =>
      let context := slice_to ngram (n - 1) in
      let* pred := getitem ngram (n - 1) in
      let '(r, (model', _)) := NgramModel.predict model context in
      let* distr := r in
      match distr !! pred with
      | Some p =>
          cross_ent_loop model' n rest (isub_log2 cross_ent p) (count + 1)
      | None => cross_ent_loop model' n rest cross_ent count
      end
  end.

(** The accumulator after the probabilities [probs] have been scored. *)
Definition scored (a : pyfloat) (probs : list Q) : pyfloat :=
  foldl isub_log2 a probs.

Definition cross_ent (model : NgramModel.t) (corpus : Corpus.t) (n : Z)
    (test : bool) (st : rng) : result ((pyfloat * Z) * rng) :=
  let* out := Corpus.get_ngrams corpus n test st in
  let '(grams, st') := out in
  let* acc := cross_ent_loop model n grams (PyFloat fzero) 0 in
  let '(total, count) := acc in
  let* mean := idiv_int total count in
  Ok ((mean, count), st').

End CrossEntropy.

(** ** The specification's vocabulary *)

(** The [n] consecutive tokens of [sent] that begin at [pos]. *)
Definition window (sent : sentence) (pos n : Z) : ngram :=
  take (Z.to_nat n) (drop (Z.to_nat pos) sent).

(** What the specification says one sentence contributes: nothing below ten
    tokens, else one window per start position [0 .. len(sent) - n]. *)
Definition windows (n : Z) (sent : sentence) : list ngram :=
  if len sent <? 10 then []
  else (λ pos, window sent pos n) <$> seqZ 0 (len sent - n + 1).

(** The last [k] tokens of a context. *)
Definition last_tokens (k : Z) (context : list token) : list token :=
  drop (length context - Z.to_nat k) context.

(** The sum of the values of a mapping. *)
Definition sum_counts (m : gmap token Z) : Z :=
  foldr Z.add 0 (snd <$> map_to_list m).

Definition sum_probabilities (d : gmap token Q) : Q :=
  foldr Qplus 0%Q (snd <$> map_to_list d).

(** A model is trained once [learn] has filled both of its tables. *)
Definition trained (m : NgramModel.t) : Prop :=
  is_Some (NgramModel.ngrams m) ∧ is_Some (NgramModel.alphabet m).

(** The words kept for a context, with their counts: the vocabulary words
    whose n-gram after the context has a positive count. *)
Definition kept_counts (c : Counter) (a : gset token) (context : list token)
    (kept : gmap token Z) : Prop :=
  ∀ w k, kept !! w = Some k ↔ w ∈ a ∧ count_of c (context ++ [w]) = k ∧ 0 < k.

(** What one turn of the loop of [predict] over the vocabulary does to
    [matches], for the table [c]. *)
Definition matches_step (c : Counter) (context : list token)
    (matches : gmap token Z) (word : token) : gmap token Z :=
  if 0 <? count_of c (context ++ [word])
  then <[word := count_of c (context ++ [word])]> matches
  else matches.

(** The relative frequency of a count among all kept counts. *)
Definition relative_frequency (kept : gmap token Z) (k : Z) : Q :=
  (inject_Z k / inject_Z (sum_counts kept))%Q.

(** How often [g] occurs in a sequence of n-grams. *)
Definition occurrences (g : ngram) (gs : list ngram) : Z :=
  Z.of_nat (length (filter (λ g', g' = g) gs)).

(** ** Example objects *)

Definition abc_sentence : sentence :=
  ["a"; "b"; "c"; "d"; "e"; "f"; "g"; "h"; "i"; "j"]%string.

Definition abc_corpus : Corpus.t :=
  {| Corpus.test_percentage := 1 # 10; Corpus.doc := [abc_sentence] |}.

(** A generator whose samples are all [q]. *)
Definition steady (q : Q) : rng := {| draws := λ _, q; cursor := 0 |}.

(** A generator whose first sample is 0.05 and whose later ones are 0.5. *)
Definition low_then_high : rng :=
  {| draws := λ i, match i with O => 1 # 20 | S _ => 1 # 2 end; cursor := 0 |}.

(** The model of order [n] after [learn(abc_corpus)], all samples 0.5. *)
Definition abc_model (n : Z) : NgramModel.t :=
  match NgramModel.learn (NgramModel.init n) abc_corpus (steady (1 # 2)) with
  | Ok (m, _) => m
  | Raise _ => NgramModel.init n
  end.

(** The probability the model gives to the last token of an n-gram after
    its first [n - 1] tokens, if [predict] returns that token at all. *)
Definition score (model : NgramModel.t) (n : Z) (g : ngram) : option Q :=
  match fst (NgramModel.predict model (take (Z.to_nat (n - 1)) g)) with
  | Ok distr => last g ≫= (distr !!.)
  | Raise _ => None
  end.

(** Floats read as real numbers. *)
Definition real_floats : FloatOps :=
  {| num := R;
     fzero := 0%R;
     fsub := Rminus;
     fdiv_int := λ x k, (x / IZR k)%R;
     log2 := λ q, (ln (Q2R q) / ln 2)%R |}.

(** ** The rest of the notebook *)

(** [eval(n)] trains a model of order [n] and prints its cross entropy on
    both partitions.  The corpus it builds from the global [text] is an
    argument here; what it prints is handed back as a list, up to the point
    where an exception, if any, ends the call. *)

Section Evaluation.
Context {F : FloatOps}.

Inductive printed :=
| Header (n : Z)
| TrainingLine (cross_ent : pyfloat) (count : Z)
| TestLine (cross_ent : pyfloat) (count : Z).

Definition eval (corpus : Corpus.t) (n : Z) (st : rng)
    : list printed * result rng :=
  let model := NgramModel.init n in
  match NgramModel.learn model corpus st with
  | Raise e => ([], Raise e)
  | Ok (model, st1) =>
      match cross_ent model corpus n false st1 with
      | Raise e => ([Header n], Raise e)
      | Ok ((ce, count), st2) =>
          match cross_ent model corpus n true st2 with
          | Raise e => ([Header n; TrainingLine ce count], Raise e)
          | Ok ((ce', count'), st3) =>
              ([Header n; TrainingLine ce count; TestLine ce' count'], Ok st3)
          end
      end
  end.

End Evaluation.

(** The cell that picks the next word,
    [max(d.keys(), key=lambda key: d[key])]: [max] keeps the first item
    whose key is greater than all before it, raises [ValueError] on an empty
    sequence, and [d[key]] raises [KeyError] on a missing key. *)

Inductive max_outcome :=
| MaxIs (w : token)
| EmptySequence
| KeyError.

Fixpoint max_loop (d : gmap token Q) (keys : list token) (maxitem : token)
    (maxval : Q) : max_outcome :=
  match keys with
  | [] => MaxIs maxitem
  | item :: rest =>
      match d !! item with
      | None => KeyError
      | Some val =>
          if Qlt_bool maxval val then max_loop d rest item val
          else max_loop d rest maxitem maxval
      end
  end.

Definition max_by_value (d : gmap token Q) (keys : list token) : max_outcome :=
  match keys with
  | [] => EmptySequence
  | item :: rest =>
      match d !! item with
      | None => KeyError
      | Some val => max_loop d rest item val
      end
  end.

(** [keys] is [d.keys()]: the keys of [d], in whatever order the dict lists
    them. *)
Definition lists_keys (d : gmap token Q) (keys : list token) : Prop :=
  ∀ k, k ∈ keys ↔ is_Some (d !! k).

Definition pred_next_word (d : gmap token Q) (keys : list token)
    : max_outcome :=
  max_by_value d keys.

(** The sum of all counts of a table. *)
Definition Counter_total (c : Counter) : Z :=
  map_fold (λ _ k acc, k + acc) 0 c.

(** The sentence at index [i] is a test sentence when the second of its two
    samples is below the ratio [p]. *)
Definition test_pick (p : Q) (st : rng) (i : nat) (sent : sentence)
    : option sentence :=
  if Qlt_bool (draws st (cursor st + 2 * i + 1)%nat) p then Some sent else None.

(** The score of [abc_model 3] on the eight triples of [abc_sentence]. *)
Definition abc_score : pyfloat (F := real_floats) :=
  NpFloat64
    (fdiv_int
       (foldl (λ x p, fsub x (log2 p)) fzero
          (omap (score (abc_model 3) 3) (windows 3 abc_sentence)))
       8).

(** The two tables of a model agree: every n-gram of the count table has
    [n] tokens, a count of at least 1, and only tokens of the vocabulary. *)
Definition consistent (m : NgramModel.t) : Prop :=
  ∃ cnt a,
    NgramModel.ngrams m = Some cnt
    ∧ NgramModel.alphabet m = Some a
    ∧ ∀ g k, cnt !! g = Some k →
        len g = NgramModel.n m ∧ 1 ≤ k ∧ ∀ w, w ∈ g → w ∈ a.

(** The number of n-grams one sentence contributes. *)
Definition ngram_count (n : Z) (sent : sentence) : Z :=
  if len sent <? 10 then 0 else Z.max 0 (len sent - n + 1).

(** A longer document: a sentence of twelve tokens, one of three, and the
    ten-token sentence. *)
Definition long_sentence : sentence :=
  ["k"; "l"; "a"; "b"; "c"; "a"; "b"; "c"; "a"; "b"; "d"; "m"]%string.

Definition short_sentence : sentence := ["x"; "y"; "z"]%string.

Definition mixed_corpus : Corpus.t :=
  {| Corpus.test_percentage := 1 # 10;
     Corpus.doc := [long_sentence; short_sentence; abc_sentence] |}.

(** * Properties *)

(** ** Python primitives *)

Lemma getitem_lookup {A} (l : list A) (i : Z) (x : A) :
  0 ≤ i → l !! Z.to_nat i = Some x → getitem l i = Ok x.
Proof.
  intros Hi Hx. unfold getitem.
  assert (Z.to_nat i < length l)%nat by (by eapply lookup_lt_Some).
  destruct (Z.ltb_spec i 0); [lia|].
  destruct (Z.ltb_spec i 0); [lia|].
  destruct (Z.leb_spec (len l) i); [unfold len in *; lia|].
  simpl. by rewrite Hx.
Qed.

Lemma elem_of_concat {A} (x : A) (ls : list (list A)) :
  x ∈ concat ls → ∃ l, x ∈ l ∧ l ∈ ls.
Proof.
  induction ls as [|l ls IH]; simpl; [by intros ?%elem_of_nil|].
  intros [Hx|Hx]%elem_of_app.
  - exists l. split; [done|left].
  - destruct (IH Hx) as (l' & ? & ?). exists l'. split; [done|by right].
Qed.

Lemma for_each_total {A B} (f : A → result B) (g : A → B) (l : list A) :
  (∀ x, x ∈ l → f x = Ok (g x)) → for_each f l = Ok (g <$> l).
Proof.
  induction l as [|x l IH]; intros Hf; [done|].
  simpl. rewrite Hf by left. simpl.
  rewrite IH; [done|]. intros y Hy. apply Hf. by right.
Qed.

(** ** Corpus.get_ngrams *)

Lemma ngram_at_window_from (sent : sentence) (pos : Z) (m : nat) :
  ∀ k : Z, 0 ≤ pos → 0 ≤ k → pos + k + Z.of_nat m ≤ len sent →
    for_each (λ i, getitem sent (pos + i)) (seqZ k (Z.of_nat m))
    = Ok (take m (drop (Z.to_nat (pos + k)) sent)).
Proof.
  induction m as [|m IH]; intros k Hpos Hk Hlen.
  - by rewrite take_0.
  - rewrite seqZ_cons by lia. simpl.
    destruct (lookup_lt_is_Some_2 sent (Z.to_nat (pos + k))) as [x Hx];
      [unfold len in Hlen; lia|].
    rewrite (getitem_lookup sent (pos + k) x) by (done || lia). simpl.
    replace (Z.pred (Z.of_nat (S m))) with (Z.of_nat m) by lia.
    rewrite IH by lia. simpl.
    rewrite (drop_S _ _ _ Hx). simpl.
    by replace (Z.to_nat (pos + Z.succ k)) with (S (Z.to_nat (pos + k))) by lia.
Qed.

Lemma ngram_at_window (sent : sentence) (pos n : Z) :
  0 ≤ pos → 0 ≤ n → pos + n ≤ len sent →
  Corpus.ngram_at sent pos n = Ok (window sent pos n).
Proof.
  intros Hpos Hn Hlen. unfold Corpus.ngram_at, range, window.
  rewrite <- (Z2Nat.id n) at 1 by done.
  rewrite ngram_at_window_from by lia.
  by rewrite Z.add_0_r.
Qed.

Lemma ngram_positions_windows (sent : sentence) (n : Z) (j : nat) :
  ∀ k : Z, 1 ≤ n → 0 ≤ k → k + Z.of_nat j = len sent →
    Corpus.ngram_positions sent n (seqZ k (Z.of_nat j))
    = Ok ((λ pos, window sent pos n) <$> seqZ k (len sent - n + 1 - k)).
Proof.
  induction j as [|j IH]; intros k Hn Hk Hlen.
  - simpl. by rewrite seqZ_nil by lia.
  - rewrite seqZ_cons by lia. simpl.
    destruct (Z.ltb_spec (len sent - k) n).
    + by rewrite seqZ_nil by lia.
    + rewrite ngram_at_window by lia. simpl.
      replace (Z.pred (Z.of_nat (S j))) with (Z.of_nat j) by lia.
      rewrite IH by lia. simpl.
      rewrite (seqZ_cons k) by lia. simpl.
      do 4 f_equal. lia.
Qed.

Lemma sentence_ngrams_windows (n : Z) (sent : sentence) :
  1 ≤ n → Corpus.sentence_ngrams n sent = Ok (windows n sent).
Proof.
  intros Hn. unfold Corpus.sentence_ngrams, windows.
  destruct (len sent <? 10); [done|].
  unfold range, len at 1.
  rewrite ngram_positions_windows by (unfold len; lia).
  by rewrite Z.sub_0_r.
Qed.

Lemma window_length (sent : sentence) (pos n : Z) :
  0 ≤ pos → 0 ≤ n → pos + n ≤ len sent → len (window sent pos n) = n.
Proof.
  intros. unfold window, len in *. rewrite length_take, length_drop. lia.
Qed.

Lemma windows_length (n : Z) (sent : sentence) (g : ngram) :
  1 ≤ n → g ∈ windows n sent → len g = n.
Proof.
  intros Hn. unfold windows. destruct (len sent <? 10); [by intros ?%elem_of_nil|].
  intros (pos & -> & Hpos)%list_elem_of_fmap.
  apply elem_of_seqZ in Hpos. apply window_length; lia.
Qed.

Lemma get_ngrams_concat (c : Corpus.t) (n : Z) (test : bool) (st : rng) :
  1 ≤ n →
  Corpus.get_ngrams c n test st
  = Ok (concat (windows n <$> fst (Corpus.get_sentences c test st)),
        snd (Corpus.get_sentences c test st)).
Proof.
  intros Hn. unfold Corpus.get_ngrams.
  destruct (Corpus.get_sentences c test st) as [sents st']. simpl.
  rewrite (for_each_total _ (windows n)); [done|].
  intros sent _. by apply sentence_ngrams_windows.
Qed.

(** C1: for an order [n >= 1], [get_ngrams(n, test)] returns, for the
    sentences of [get_sentences(test)] in their order, nothing for a sentence
    of fewer than 10 tokens and otherwise the window of [n] consecutive
    tokens at every start position from 0 to [len(sentence) - n], in position
    order; it draws what [get_sentences] draws and never raises.  A sentence
    of ten tokens gives, for [n = 3], the 8 triples from its first three to
    its last three tokens. *)
Theorem get_ngrams_windows (corpus : Corpus.t) (n : Z) (test : bool)
    (st : rng) :
  1 ≤ n →
  Corpus.get_ngrams corpus n test st
  = Ok (concat (windows n <$> fst (Corpus.get_sentences corpus test st)),
        snd (Corpus.get_sentences corpus test st))
  ∧ (∀ sent g, g ∈ windows n sent → len g = n)
  ∧ (∀ a b c d e f g h i j : token,
       Corpus.sentence_ngrams 3 [a; b; c; d; e; f; g; h; i; j]
       = Ok [[a; b; c]; [b; c; d]; [c; d; e]; [d; e; f];
             [e; f; g]; [f; g; h]; [g; h; i]; [h; i; j]]).
Proof.
  intros Hn. split; [|split].
  - by apply get_ngrams_concat.
  - intros sent g. by apply windows_length.
  - intros. by rewrite sentence_ngrams_windows.
Qed.

(** ** Corpus.get_sentences *)

(** With [test=False] the first sample decides; a sentence that is left out
    costs a second sample. *)
Lemma selected_train (p : Q) (st : rng) :
  Corpus.selected p false st
  = if Qge_bool (draws st (cursor st)) p
    then (true, {| draws := draws st; cursor := S (cursor st) |})
    else (false, {| draws := draws st; cursor := S (S (cursor st)) |}).
Proof.
  unfold Corpus.selected, random. simpl.
  destruct (Qge_bool _ _); simpl; [done|]. by rewrite andb_false_r.
Qed.

(** With [test=True] two samples are read and the second decides. *)
Lemma selected_test (p : Q) (st : rng) :
  Corpus.selected p true st
  = (Qlt_bool (draws st (S (cursor st))) p,
     {| draws := draws st; cursor := S (S (cursor st)) |}).
Proof.
  unfold Corpus.selected, random. simpl.
  rewrite andb_false_r, andb_true_r. done.
Qed.

(** C4, on the code: one sentence, [test=True], samples 0.05 then 0.5 and
    a split ratio of 0.1.  The first sample is below the ratio, yet the
    sentence is left out and two samples are consumed. *)
Theorem get_sentences_second_draw :
  Qlt_bool (draws low_then_high 0) (Corpus.test_percentage abc_corpus) = true
  ∧ fst (Corpus.get_sentences abc_corpus true low_then_high) = []
  ∧ cursor (snd (Corpus.get_sentences abc_corpus true low_then_high)) = 2%nat
  ∧ cursor (snd (Corpus.get_sentences abc_corpus false low_then_high)) = 2%nat.
Proof. by vm_compute. Qed.

Lemma get_sentences_test_cursor (p : Q) (sents : list sentence) (st : rng) :
  cursor (snd (Corpus.get_sentences_loop p true sents st))
  = (cursor st + 2 * length sents)%nat.
Proof.
  revert st. induction sents as [|sent rest IH]; intros st; simpl; [lia|].
  rewrite selected_test.
  destruct (Corpus.get_sentences_loop _ _ _ _) as [out st2] eqn:E. simpl.
  apply (f_equal snd) in E. simpl in E. subst st2. rewrite IH. simpl. lia.
Qed.

(** ** NgramModel.predict *)

Section Predict.
Variables (c : Counter) (context : list token).

Local Abbreviation step := (matches_step c context).

Lemma matches_loop_trained (words : list token) (m0 : gmap token Z) :
  NgramModel.matches_loop (Some c) context words m0
  = (Ok (foldl step m0 words), Some c).
Proof.
  revert m0. induction words as [|w words IH]; intros m0; [done|].
  simpl. by rewrite IH.
Qed.

Lemma foldl_step_lookup (words : list token) (m0 : gmap token Z) (w : token) :
  foldl step m0 words !! w
  = if decide (w ∈ words ∧ 0 < count_of c (context ++ [w]))
    then Some (count_of c (context ++ [w]))
    else m0 !! w.
Proof.
  revert m0. induction words as [|x words IH]; intros m0.
  - case_decide as H; [|done]. destruct H as [[]%elem_of_nil _].
  - change (foldl step m0 (x :: words)) with (foldl step (step m0 x) words).
    rewrite IH. unfold matches_step.
    case_decide as H1; case_decide as H2; try done.
    + exfalso. apply H2. rewrite elem_of_cons. tauto.
    + destruct H2 as [Hin Hpos]. apply elem_of_cons in Hin as [->|Hin].
      * apply Z.ltb_lt in Hpos. rewrite Hpos. by rewrite lookup_insert_eq.
      * exfalso. by apply H1.
    + destruct (0 <? _) eqn:E; [|done].
      rewrite lookup_insert_ne; [done|]. intros ->.
      apply H2. rewrite elem_of_cons. apply Z.ltb_lt in E. tauto.
Qed.

Lemma foldl_step_kept (a : gset token) :
  kept_counts c a context (foldl step ∅ (elements a)).
Proof.
  intros w k. rewrite foldl_step_lookup, lookup_empty.
  case_decide as H.
  - rewrite elem_of_elements in H. destruct H as [Ha Hp]. split.
    + by intros [= <-].
    + by intros (_ & <- & _).
  - rewrite elem_of_elements in H. split; [done|]. intros (? & <- & ?). tauto.
Qed.

End Predict.

Lemma kept_counts_unique c a context (m1 m2 : gmap token Z) :
  kept_counts c a context m1 → kept_counts c a context m2 → m1 = m2.
Proof.
  intros H1 H2. apply map_eq. intros w. apply option_eq. intros k.
  by rewrite (H1 w k), (H2 w k).
Qed.

Lemma sum_float_inject_from (values : list Z) (z : Z) :
  foldl (λ acc v, acc + inject_Z v)%Q (inject_Z z) values
  = inject_Z (z + foldr Z.add 0 values).
Proof.
  revert z. induction values as [|v values IH]; intros z; simpl.
  - by rewrite Z.add_0_r.
  - replace (inject_Z z + inject_Z v)%Q with (inject_Z (z + v)).
    + rewrite IH. f_equal. lia.
    + unfold Qplus, inject_Z. simpl. f_equal. lia.
Qed.

Lemma sum_float_inject (values : list Z) :
  NgramModel.sum_float values = inject_Z (foldr Z.add 0 values).
Proof. apply (sum_float_inject_from values 0). Qed.

Lemma sum_positive (l : list Z) :
  (∀ k, k ∈ l → 0 < k) → l ≠ [] → 0 < foldr Z.add 0 l.
Proof.
  induction l as [|k l IH]; intros Hall Hne; [done|].
  assert (0 < k) by (apply Hall; left).
  change (0 < k + foldr Z.add 0 l).
  destruct l as [|k' l']; [simpl; lia|].
  assert (0 < foldr Z.add 0 (k' :: l')); [|lia].
  apply IH; [|done]. intros k0 Hk0. apply Hall. by right.
Qed.

Lemma sum_counts_pos (m : gmap token Z) :
  (∀ w k, m !! w = Some k → 0 < k) → m ≠ ∅ → 0 < sum_counts m.
Proof.
  intros Hpos Hne. unfold sum_counts. apply sum_positive.
  - intros k ([w k'] & -> & Hin)%list_elem_of_fmap.
    apply elem_of_map_to_list in Hin. by eapply Hpos.
  - intros Hnil%fmap_nil_inv. by apply map_to_list_empty_iff in Hnil.
Qed.

Lemma normalize_empty (total_count : Q) :
  NgramModel.normalize ∅ total_count = Ok ∅.
Proof. unfold NgramModel.normalize. by rewrite map_to_list_empty. Qed.

Lemma normalize_nonzero (matches : gmap token Z) (total_count : Q) :
  Qeq_bool total_count 0 = false →
  NgramModel.normalize matches total_count
  = Ok ((λ v, inject_Z v / total_count)%Q <$> matches).
Proof.
  intros Hne. unfold NgramModel.normalize.
  rewrite (for_each_total _ (prod_map Datatypes.id (λ v, inject_Z v / total_count)%Q)).
  - simpl. by rewrite list_to_map_fmap, list_to_map_to_list.
  - intros [w v] _. unfold NgramModel.truediv. by rewrite Hne.
Qed.

Lemma inject_Z_nonzero (z : Z) : 0 < z → Qeq_bool (inject_Z z) 0 = false.
Proof.
  intros Hz. destruct (Qeq_bool _ _) eqn:E; [|done].
  apply Qeq_bool_iff in E. unfold Qeq in E. simpl in E. lia.
Qed.

(** What [predict] returns for a trained model and a context that is long
    enough: the kept counts, each divided by their sum. *)
Lemma predict_trained (self : NgramModel.t) c a (context : list token) :
  NgramModel.ngrams self = Some c →
  NgramModel.alphabet self = Some a →
  NgramModel.n self - 1 ≤ len context →
  ∃ kept,
    kept_counts c a (NgramModel.truncate (NgramModel.n self) context) kept
    ∧ (∀ w k, kept !! w = Some k → 0 < k)
    ∧ fst (NgramModel.predict self context)
      = Ok (relative_frequency kept <$> kept).
Proof.
  intros Hc Ha Hlen. unfold NgramModel.predict.
  destruct (Z.ltb_spec (len context) (NgramModel.n self - 1)); [lia|].
  rewrite Ha, Hc, matches_loop_trained. simpl.
  pose proof (foldl_step_kept c
    (NgramModel.truncate (NgramModel.n self) context) a) as Hkept.
  set (kept := foldl _ ∅ (elements a)) in *.
  assert (Hpos : ∀ w k, kept !! w = Some k → 0 < k).
  { intros w k Hk. apply Hkept in Hk. tauto. }
  exists kept. split; [done|]. split; [done|].
  destruct (decide (kept = ∅)) as [->|Hne].
  - by rewrite normalize_empty, fmap_empty.
  - rewrite sum_float_inject.
    rewrite normalize_nonzero; [done|].
    apply inject_Z_nonzero. by apply sum_counts_pos.
Qed.

Lemma inject_Z_pos (z : Z) : 0 < z → (0 < inject_Z z)%Q.
Proof. intros Hz. unfold Qlt. simpl. lia. Qed.

Lemma relative_frequency_pos (kept : gmap token Z) (k : Z) :
  0 < k → 0 < sum_counts kept → (0 < relative_frequency kept k)%Q.
Proof.
  intros Hk Hs. unfold relative_frequency.
  apply Qlt_shift_div_l.
  - by apply inject_Z_pos.
  - rewrite Qmult_0_l. by apply inject_Z_pos.
Qed.

(** X24: relative to the context that [predict] itself keeps, the result
    of its slice ([NgramModel.truncate]), and for every order: for a trained
    model and a context of at least [n - 1] tokens, the keys of the result
    are exactly the vocabulary words with a positive count for the kept
    context followed by the word; each is mapped to that count divided by
    the sum of the kept counts, so every probability is positive and no
    returned word has count 0. *)
Theorem predict_relative_frequencies (self : NgramModel.t) c a
    (context : list token) :
  NgramModel.ngrams self = Some c →
  NgramModel.alphabet self = Some a →
  NgramModel.n self - 1 ≤ len context →
  let context' := NgramModel.truncate (NgramModel.n self) context in
  ∃ kept d,
    kept_counts c a context' kept
    ∧ fst (NgramModel.predict self context) = Ok d
    ∧ (∀ w, is_Some (d !! w) ↔ w ∈ a ∧ 0 < count_of c (context' ++ [w]))
    ∧ (∀ w q, d !! w = Some q →
         q = relative_frequency kept (count_of c (context' ++ [w]))
         ∧ (0 < q)%Q
         ∧ count_of c (context' ++ [w]) ≠ 0).
Proof.
  intros Hc Ha Hlen context'.
  destruct (predict_trained self c a context Hc Ha Hlen)
    as (kept & Hkept & Hpos & Hd).
  fold context' in Hkept.
  exists kept, (relative_frequency kept <$> kept).
  split; [done|]. split; [done|]. split.
  - intros w. rewrite lookup_fmap, fmap_is_Some. split.
    + intros [k Hk]. apply Hkept in Hk as (? & <- & ?). done.
    + intros [Hw Hk]. exists (count_of c (context' ++ [w])). by apply Hkept.
  - intros w q Hq. apply lookup_fmap_Some in Hq as (k & <- & Hk).
    assert (kept ≠ ∅) by (intros ->; by rewrite lookup_empty in Hk).
    apply Hkept in Hk as Hk'. destruct Hk' as (_ & <- & Hk0).
    split; [done|]. split; [|by apply Z.neq_sym, Z.lt_neq].
    apply relative_frequency_pos; [done|]. by apply sum_counts_pos.
Qed.

(** C6: for a trained model and a context of valid length after which no
    vocabulary word has a positive count, [predict] returns the empty
    mapping; the zero total is never divided by. *)
Theorem predict_no_match (self : NgramModel.t) c a (context : list token) :
  NgramModel.ngrams self = Some c →
  NgramModel.alphabet self = Some a →
  NgramModel.n self - 1 ≤ len context →
  (∀ w, w ∈ a →
     count_of c (NgramModel.truncate (NgramModel.n self) context ++ [w]) ≤ 0) →
  fst (NgramModel.predict self context) = Ok ∅.
Proof.
  intros Hc Ha Hlen Hnone.
  destruct (predict_trained self c a context Hc Ha Hlen)
    as (kept & Hkept & _ & ->).
  assert (kept = ∅) as ->; [|by rewrite fmap_empty].
  apply map_eq. intros w. rewrite lookup_empty.
  destruct (kept !! w) as [k|] eqn:E; [|done].
  apply Hkept in E as (Hw & <- & Hk). apply Hnone in Hw. lia.
Qed.

(** *** The exceptions of [predict] *)

Lemma for_each_Raise {A B} (f : A → result B) (l : list A) (e : exn) :
  for_each f l = Raise e → ∃ x, x ∈ l ∧ f x = Raise e.
Proof.
  induction l as [|x l IH]; [done|]. simpl.
  destruct (f x) as [y|e'] eqn:Ex; simpl.
  - destruct (for_each f l) as [ys|e'] eqn:El; simpl; [done|].
    intros [= ->]. destruct IH as (x' & ? & ?); [done|].
    exists x'. split; [by right|done].
  - intros [= ->]. exists x. split; [by left|done].
Qed.

Lemma normalize_raises (matches : gmap token Z) (total_count : Q) (e : exn) :
  NgramModel.normalize matches total_count = Raise e → e = ZeroDivisionError.
Proof.
  unfold NgramModel.normalize.
  destruct (for_each _ _) as [items|e'] eqn:E; simpl; [done|].
  intros [= ->]. apply for_each_Raise in E as ([w v] & _ & E).
  unfold NgramModel.truediv in E. simpl in E.
  destruct (Qeq_bool total_count 0); simpl in E; congruence.
Qed.

Lemma matches_loop_raises ng (context words : list token) m0 (e : exn) :
  fst (NgramModel.matches_loop ng context words m0) = Raise e → e = TypeError.
Proof.
  revert ng m0. induction words as [|w words IH]; intros ng m0; [done|].
  simpl. destruct ng as [c|]; simpl; [apply IH|congruence].
Qed.

Lemma matches_loop_frame ng (context words : list token) m0 :
  snd (NgramModel.matches_loop ng context words m0) = ng.
Proof.
  revert ng m0. induction words as [|w words IH]; intros ng m0; [done|].
  simpl. destruct ng as [c|]; simpl; [apply IH|done].
Qed.

(** C7: [predict] raises [ValueError] exactly when the context has fewer
    than [n - 1] tokens; with at least [n - 1] tokens it never does. *)
Theorem predict_ValueError_iff (self : NgramModel.t) (context : list token) :
  fst (NgramModel.predict self context) = Raise ValueError
  ↔ len context < NgramModel.n self - 1.
Proof.
  unfold NgramModel.predict.
  destruct (Z.ltb_spec (len context) (NgramModel.n self - 1)) as [Hlt|Hge].
  - done.
  - split; [|lia]. intros Hraise. exfalso.
    destruct (NgramModel.alphabet self) as [words|]; [|done].
    destruct (NgramModel.matches_loop _ _ _ _) as [r ng'] eqn:E.
    apply (f_equal fst) in E. simpl in *.
    destruct r as [matches|e]; simpl in Hraise.
    + by apply normalize_raises in Hraise.
    + apply matches_loop_raises in E. congruence.
Qed.

Lemma predict_state (self : NgramModel.t) (context : list token) :
  snd (NgramModel.predict self context) = (self, context).
Proof.
  unfold NgramModel.predict.
  destruct (_ <? _); [done|].
  destruct (NgramModel.alphabet self) as [words|] eqn:Ha; [|done].
  destruct (NgramModel.matches_loop _ _ _ _) as [r ng'] eqn:E.
  apply (f_equal snd) in E. rewrite matches_loop_frame in E. simpl in *.
  subst ng'. rewrite <- Ha. by destruct self.
Qed.

(** C10: [predict] and [predict_str] leave the model, with its count table
    and vocabulary, and the caller's context as they were, whatever they
    return or raise; reading the count of an n-gram that is not in the table
    does not put it there. *)
Theorem predict_frame (self : NgramModel.t) :
  (∀ context, snd (NgramModel.predict self context) = (self, context))
  ∧ (∀ nlp context_str,
       snd (NgramModel.predict_str nlp self context_str) = (self, context_str))
  ∧ (∀ (c : Counter) g,
       snd (Counter_getitem c g) = c
       ∧ (c !! g = None → snd (Counter_getitem c g) !! g = None)).
Proof.
  pose proof (predict_state self) as Hpredict.
  split; [done|]. split; [|done].
  intros nlp context_str. unfold NgramModel.predict_str.
  specialize (Hpredict (nlp context_str)).
  destruct (NgramModel.predict self (nlp context_str)) as [r [self' ctx]].
  simpl in *. congruence.
Qed.

(** *** The probabilities of [predict] *)

Lemma Qsum_Permutation (l1 l2 : list Q) :
  l1 ≡ₚ l2 → (foldr Qplus 0 l1 == foldr Qplus 0 l2)%Q.
Proof.
  induction 1 as [|x l1 l2 _ IH|x y l|l1 l2 l3 _ IH1 _ IH2]; simpl.
  - reflexivity.
  - by rewrite IH.
  - ring.
  - by rewrite IH1.
Qed.

Lemma Qsum_scaled (total : Q) (values : list Z) :
  ¬ (total == 0)%Q →
  (foldr Qplus 0 ((λ v, inject_Z v / total) <$> values)
   == inject_Z (foldr Z.add 0%Z values) / total)%Q.
Proof.
  intros Hne. induction values as [|v values IH]; simpl.
  - by field.
  - rewrite IH, inject_Z_plus. by field.
Qed.

(** C9: for a trained model and a context of valid length, the
    probabilities of a non-empty result of [predict] sum to 1 as rational
    numbers. *)
Theorem predict_sums_to_one (self : NgramModel.t) c a (context : list token)
    (d : gmap token Q) :
  NgramModel.ngrams self = Some c →
  NgramModel.alphabet self = Some a →
  NgramModel.n self - 1 ≤ len context →
  fst (NgramModel.predict self context) = Ok d →
  d ≠ ∅ →
  (sum_probabilities d == 1)%Q.
Proof.
  intros Hc Ha Hlen Hd Hne.
  destruct (predict_trained self c a context Hc Ha Hlen)
    as (kept & _ & Hpos & Hd').
  rewrite Hd' in Hd. injection Hd as <-.
  assert (kept ≠ ∅) by (intros ->; by rewrite fmap_empty in Hne).
  assert (Hsum : 0 < sum_counts kept) by (by apply sum_counts_pos).
  assert (Hnz : ¬ (inject_Z (sum_counts kept) == 0)%Q).
  { intros E. unfold Qeq in E. simpl in E. lia. }
  unfold sum_probabilities.
  rewrite (Qsum_Permutation _
    (relative_frequency kept <$> (map_to_list kept).*2)).
  - unfold relative_frequency.
    rewrite (Qsum_scaled _ _ Hnz). fold (sum_counts kept). by field.
  - rewrite map_to_list_fmap, <- !list_fmap_compose.
    erewrite list_fmap_ext; [reflexivity|]. by intros _ [w k] _.
Qed.

(** *** The truncation of the context *)

Lemma truncate_exact (n : Z) (context : list token) :
  len context = n - 1 → NgramModel.truncate n context = context.
Proof.
  intros Hlen. unfold NgramModel.truncate.
  destruct (Z.leb_spec n (len context)); [lia|done].
Qed.

Lemma truncate_last (n : Z) (context : list token) :
  2 ≤ n → n - 1 ≤ len context →
  NgramModel.truncate n context = last_tokens (n - 1) context.
Proof.
  intros Hn Hlen. unfold NgramModel.truncate, last_tokens.
  destruct (Z.leb_spec n (len context)).
  - unfold slice_from, clamp. destruct (Z.ltb_spec (- n + 1) 0); [|lia].
    f_equal. unfold len in *. lia.
  - replace (length context - Z.to_nat (n - 1))%nat with 0%nat; [done|].
    unfold len in *. lia.
Qed.

(** For the order 1 the slice [context[-1 + 1:]] is [context[0:]]: the whole
    context is kept. *)
Lemma truncate_unigram (context : list token) :
  NgramModel.truncate 1 context = context.
Proof.
  unfold NgramModel.truncate. destruct (1 <=? len context); [|done].
  unfold slice_from, clamp. change (- (1) + 1 <? 0) with false. cbv iota.
  change (- (1) + 1) with 0.
  assert (Z.min 0 (len context) = 0) as -> by (unfold len; lia). done.
Qed.

Lemma predict_result_ext (self : NgramModel.t) (context1 context2 : list token) :
  NgramModel.n self - 1 ≤ len context1 →
  NgramModel.n self - 1 ≤ len context2 →
  NgramModel.truncate (NgramModel.n self) context1
  = NgramModel.truncate (NgramModel.n self) context2 →
  fst (NgramModel.predict self context1)
  = fst (NgramModel.predict self context2).
Proof.
  intros H1 H2 Heq. unfold NgramModel.predict.
  destruct (Z.ltb_spec (len context1) (NgramModel.n self - 1)); [lia|].
  destruct (Z.ltb_spec (len context2) (NgramModel.n self - 1)); [lia|].
  rewrite Heq. destruct (NgramModel.alphabet self); [|done].
  by destruct (NgramModel.matches_loop _ _ _ _).
Qed.

(** From the order 2 on, a longer context gives what its last [n - 1]
    tokens give. *)
Lemma predict_truncated (self : NgramModel.t) (context : list token) :
  2 ≤ NgramModel.n self →
  NgramModel.n self - 1 < len context →
  fst (NgramModel.predict self context)
  = fst (NgramModel.predict self
           (last_tokens (NgramModel.n self - 1) context)).
Proof.
  intros Hn Hlen.
  assert (Hlast : len (last_tokens (NgramModel.n self - 1) context)
                  = NgramModel.n self - 1).
  { unfold last_tokens, len in *. rewrite length_drop. lia. }
  apply predict_result_ext; [lia..|].
  rewrite (truncate_exact _ (last_tokens _ _)) by done.
  apply truncate_last; lia.
Qed.

(** C3, on the code: a model of order 1 trained on [abc_corpus], asked
    with the one-token context [a].  The last [n - 1 = 0] tokens of that
    context are the empty context, for which [predict] gives every word the
    probability 1/10; for the context itself it gives the empty mapping. *)
Theorem predict_unigram_keeps_context :
  NgramModel.n (abc_model 1) = 1
  ∧ trained (abc_model 1)
  ∧ last_tokens (NgramModel.n (abc_model 1) - 1) ["a"%string] = []
  ∧ fst (NgramModel.predict (abc_model 1) ["a"%string]) = Ok ∅
  ∧ ∃ d, fst (NgramModel.predict (abc_model 1) []) = Ok d
         ∧ d !! "a"%string = Some (1 # 10)%Q.
Proof.
  split; [done|]. split; [by split; eexists|]. split; [done|].
  split; [by vm_compute|].
  eexists. split; [by vm_compute|]. by vm_compute.
Qed.

(** C2, on the code: a model of order 1 trained on [abc_corpus], asked
    with the one-token context [a].  The context truncated to its last
    [n - 1 = 0] tokens is empty, the vocabulary word [a] has the positive
    count 1 for the 1-gram made of it, and yet [a] is not a key of what
    [predict] returns: the result is the empty mapping. *)
Theorem predict_unigram_keys_miss :
  NgramModel.ngrams (abc_model 1) = Some (Counter_of (windows 1 abc_sentence))
  ∧ NgramModel.alphabet (abc_model 1) = Some (list_to_set abc_sentence)
  ∧ NgramModel.n (abc_model 1) - 1 ≤ len ["a"%string]
  ∧ ("a"%string ∈ (list_to_set abc_sentence : gset token))
  ∧ count_of (Counter_of (windows 1 abc_sentence))
      (last_tokens (NgramModel.n (abc_model 1) - 1) ["a"%string]
       ++ ["a"%string]) = 1
  ∧ fst (NgramModel.predict (abc_model 1) ["a"%string]) = Ok ∅
  ∧ (∅ : gmap token Q) !! "a"%string = None.
Proof.
  split; [by vm_compute|]. split; [by vm_compute|]. split; [by vm_compute|].
  split; [apply (bool_decide_unpack _); by vm_compute|].
  split; [by vm_compute|]. split; [by vm_compute|]. done.
Qed.

Lemma truncate_last_tokens (n : Z) (context : list token) :
  n - 1 ≤ len context →
  2 ≤ n ∨ len context = n - 1 →
  NgramModel.truncate n context = last_tokens (n - 1) context.
Proof.
  intros Hlen [Hn|Heq].
  - by apply truncate_last.
  - rewrite truncate_exact by done. unfold last_tokens.
    replace (length context - Z.to_nat (n - 1))%nat with 0%nat; [done|].
    unfold len in *. lia.
Qed.

(** X23: what [predict] returns in terms of the last [n - 1] tokens of the
    context, for every order from 2 on and, for any order, for a context of
    exactly [n - 1] tokens.  For a trained model, the keys of the result are
    exactly the vocabulary words [w] for which the n-gram made of the last
    [n - 1] tokens of the context and [w] has a positive count; each is
    mapped to that count divided by the sum of the kept counts, so every
    probability is positive and no returned word has count 0. *)
Theorem predict_relative_frequencies_last_tokens (self : NgramModel.t) c a
    (context : list token) :
  NgramModel.ngrams self = Some c →
  NgramModel.alphabet self = Some a →
  NgramModel.n self - 1 ≤ len context →
  2 ≤ NgramModel.n self ∨ len context = NgramModel.n self - 1 →
  let context' := last_tokens (NgramModel.n self - 1) context in
  ∃ kept d,
    kept_counts c a context' kept
    ∧ fst (NgramModel.predict self context) = Ok d
    ∧ (∀ w, is_Some (d !! w) ↔ w ∈ a ∧ 0 < count_of c (context' ++ [w]))
    ∧ (∀ w q, d !! w = Some q →
         q = relative_frequency kept (count_of c (context' ++ [w]))
         ∧ (0 < q)%Q
         ∧ count_of c (context' ++ [w]) ≠ 0).
Proof.
  intros Hc Ha Hlen Hcase context'.
  destruct (predict_trained self c a context Hc Ha Hlen)
    as (kept & Hkept & Hpos & Hd).
  rewrite (truncate_last_tokens _ _ Hlen Hcase) in Hkept.
  fold context' in Hkept.
  exists kept, (relative_frequency kept <$> kept).
  split; [done|]. split; [done|]. split.
  - intros w. rewrite lookup_fmap, fmap_is_Some. split.
    + intros [k Hk]. apply Hkept in Hk as (? & <- & ?). done.
    + intros [Hw Hk]. exists (count_of c (context' ++ [w])). by apply Hkept.
  - intros w q Hq. apply lookup_fmap_Some in Hq as (k & <- & Hk).
    assert (kept ≠ ∅) by (intros ->; by rewrite lookup_empty in Hk).
    apply Hkept in Hk as Hk'. destruct Hk' as (_ & <- & Hk0).
    split; [done|]. split; [|by apply Z.neq_sym, Z.lt_neq].
    apply relative_frequency_pos; [done|]. by apply sum_counts_pos.
Qed.

(** ** NgramModel.learn *)

Lemma ngram_positions_total (sent : sentence) (n : Z) (positions : list Z) :
  (∀ pos, pos ∈ positions → 0 ≤ pos) →
  ∃ gs, Corpus.ngram_positions sent n positions = Ok gs.
Proof.
  induction positions as [|pos rest IH]; intros Hpos; [by eexists|].
  simpl. destruct (Z.ltb_spec (len sent - pos) n); [by eexists|].
  assert (0 ≤ pos) by (apply Hpos; left).
  destruct IH as [gs ->]; [intros; apply Hpos; by right|].
  destruct (Z.le_gt_cases 0 n).
  - rewrite ngram_at_window by lia. by eexists.
  - unfold Corpus.ngram_at, range. rewrite seqZ_nil by lia. by eexists.
Qed.

Lemma get_ngrams_total (c : Corpus.t) (n : Z) (test : bool) (st : rng) :
  ∃ grams,
    Corpus.get_ngrams c n test st
    = Ok (grams, snd (Corpus.get_sentences c test st)).
Proof.
  unfold Corpus.get_ngrams.
  destruct (Corpus.get_sentences c test st) as [sents st']. simpl.
  assert (∃ gss, for_each (Corpus.sentence_ngrams n) sents = Ok gss)
    as [gss ->]; [|by eexists].
  induction sents as [|sent sents [gss IH]]; [by eexists|]. simpl.
  assert (∃ gs, Corpus.sentence_ngrams n sent = Ok gs) as [gs ->].
  { unfold Corpus.sentence_ngrams. destruct (len sent <? 10); [by eexists|].
    apply ngram_positions_total. unfold range.
    intros pos Hpos%elem_of_seqZ. lia. }
  rewrite IH. by eexists.
Qed.

Lemma occurrences_cons (g x : ngram) (gs : list ngram) :
  occurrences g (x :: gs)
  = (if decide (x = g) then 1 else 0) + occurrences g gs.
Proof.
  unfold occurrences. rewrite filter_cons.
  case_decide; simpl; lia.
Qed.

Lemma occurrences_pos (g : ngram) (gs : list ngram) :
  g ∈ gs → 0 < occurrences g gs.
Proof.
  induction gs as [|x gs IH]; [by intros ?%elem_of_nil|].
  rewrite occurrences_cons.
  assert (0 ≤ occurrences g gs) by (unfold occurrences; lia).
  intros [->|Hin]%elem_of_cons.
  - rewrite decide_True by done. lia.
  - apply IH in Hin. case_decide; lia.
Qed.

Lemma occurrences_absent (g : ngram) (gs : list ngram) :
  g ∉ gs → occurrences g gs = 0.
Proof.
  induction gs as [|x gs IH]; [done|].
  rewrite occurrences_cons, not_elem_of_cons. intros [Hne Hnin].
  rewrite decide_False by done. by rewrite IH.
Qed.

Lemma Counter_of_lookup_from (gs : list ngram) (c0 : Counter) (g : ngram) :
  foldl Counter_add c0 gs !! g
  = if decide (g ∈ gs)
    then Some (default 0 (c0 !! g) + occurrences g gs)
    else c0 !! g.
Proof.
  revert c0. induction gs as [|x gs IH]; intros c0.
  - rewrite decide_False; [done|]. by intros ?%elem_of_nil.
  - change (foldl Counter_add c0 (x :: gs))
      with (foldl Counter_add (Counter_add c0 x) gs).
    rewrite IH, occurrences_cons. unfold Counter_add.
    destruct (decide (x = g)) as [->|Hne].
    + rewrite lookup_insert_eq. simpl.
      rewrite (decide_True (P := g ∈ g :: gs)) by left.
      case_decide as Hin.
      * f_equal; lia.
      * rewrite occurrences_absent by done. f_equal; lia.
    + rewrite lookup_insert_ne by done.
      case_decide as Hin.
      * by rewrite decide_True by (by right).
      * rewrite decide_False; [done|].
        rewrite not_elem_of_cons. split; [congruence|done].
Qed.

Lemma Counter_of_lookup (gs : list ngram) (g : ngram) :
  Counter_of gs !! g
  = if decide (g ∈ gs) then Some (occurrences g gs) else None.
Proof.
  unfold Counter_of. rewrite Counter_of_lookup_from, lookup_empty.
  by case_decide.
Qed.

(** C5: [learn] sets the count table to the multiset of the n-grams that
    [get_ngrams(n)] gives for the training partition: its keys are these
    n-grams and each count is the number of times the n-gram occurs among
    them.  The vocabulary becomes the set of the tokens of [get_words()],
    the whole document.  What the model held before plays no part: learning
    on any model gives what learning on a fresh model of its order gives. *)
Theorem learn_snapshot (self : NgramModel.t) (corpus : Corpus.t) (st : rng) :
  ∃ grams st' m cnt a,
    Corpus.get_ngrams corpus (NgramModel.n self) false st = Ok (grams, st')
    ∧ NgramModel.learn self corpus st = Ok (m, st')
    ∧ NgramModel.n m = NgramModel.n self
    ∧ NgramModel.ngrams m = Some cnt
    ∧ (∀ g, g ∈ dom cnt ↔ g ∈ grams)
    ∧ (∀ g, count_of cnt g = occurrences g grams)
    ∧ NgramModel.alphabet m = Some a
    ∧ (∀ w, w ∈ a ↔ w ∈ Corpus.get_words corpus)
    ∧ (∀ corpus2 st2,
         NgramModel.learn m corpus2 st2
         = NgramModel.learn (NgramModel.init (NgramModel.n self)) corpus2 st2).
Proof.
  destruct (get_ngrams_total corpus (NgramModel.n self) false st)
    as [grams Hgrams].
  exists grams, (snd (Corpus.get_sentences corpus false st)).
  eexists _, (Counter_of grams), (list_to_set (Corpus.get_words corpus)).
  split; [done|]. unfold NgramModel.learn at 1. rewrite Hgrams. simpl.
  split; [done|]. split; [done|]. split; [done|].
  split; [|split; [|split; [done|split]]].
  - intros g. rewrite elem_of_dom, Counter_of_lookup.
    case_decide; [by split|]. split; [by intros []|done].
  - intros g. unfold count_of, Counter_getitem. simpl.
    rewrite Counter_of_lookup. case_decide; [done|].
    by rewrite occurrences_absent.
  - intros w. by rewrite elem_of_list_to_set.
  - done.
Qed.

(** ** cross_ent *)

Section CrossEntropyProperties.
Context {F : FloatOps}.

Lemma scored_numpy (probs : list Q) (x : num) :
  scored (NpFloat64 x) probs
  = NpFloat64 (foldl (λ x p, fsub x (log2 p)) x probs).
Proof.
  revert x. induction probs as [|p probs IH]; intros x; [done|].
  apply (IH (fsub x (log2 p))).
Qed.

Lemma scored_value (probs : list Q) (a : pyfloat) :
  probs ≠ [] →
  scored a probs
  = NpFloat64 (foldl (λ x p, fsub x (log2 p)) (float_value a) probs).
Proof.
  destruct probs as [|p probs]; [done|]. intros _.
  apply (scored_numpy probs (fsub (float_value a) (log2 p))).
Qed.

Lemma slice_to_take (g : ngram) (n : Z) :
  1 ≤ n → len g = n → slice_to g (n - 1) = take (Z.to_nat (n - 1)) g.
Proof.
  intros Hn Hlen. unfold slice_to, clamp.
  destruct (Z.ltb_spec (n - 1) 0); [lia|]. f_equal. lia.
Qed.

Lemma getitem_last (g : ngram) (n : Z) :
  1 ≤ n → len g = n → ∃ x, last g = Some x ∧ getitem g (n - 1) = Ok x.
Proof.
  intros Hn Hlen. rewrite last_lookup.
  destruct (lookup_lt_is_Some_2 g (pred (length g))) as [x Hx];
    [unfold len in *; lia|].
  exists x. split; [done|]. apply getitem_lookup; [lia|].
  rewrite <- Hx. f_equal. unfold len in *. lia.
Qed.

Lemma cross_ent_loop_scored (model : NgramModel.t) c a (n : Z)
    (grams : list ngram) :
  NgramModel.ngrams model = Some c →
  NgramModel.alphabet model = Some a →
  1 ≤ n → NgramModel.n model = n →
  Forall (λ g, len g = n) grams →
  ∀ acc count,
    cross_ent_loop model n grams acc count
    = Ok (scored acc (omap (score model n) grams),
          count + len (omap (score model n) grams)).
Proof.
  intros Hc Ha Hn Hmodel. induction 1 as [|g grams Hg _ IH]; intros acc count.
  - simpl. by rewrite Z.add_0_r.
  - set (context := take (Z.to_nat (n - 1)) g).
    assert (Hlen : NgramModel.n model - 1 ≤ len context).
    { unfold context, len in *. rewrite length_take. lia. }
    destruct (predict_trained model c a context Hc Ha Hlen)
      as (kept & _ & _ & Hd).
    destruct (getitem_last g n Hn Hg) as (x & Hlast & Hx).
    assert (Hscore :
      score model n g = (relative_frequency kept <$> kept) !! x).
    { unfold score. fold context. by rewrite Hd, Hlast. }
    change (omap (score model n) (g :: grams))
      with (match score model n g with
            | Some p => p :: omap (score model n) grams
            | None => omap (score model n) grams
            end).
    rewrite Hscore.
    set (rest := omap (score model n) grams) in *.
    pose proof (predict_state model context) as Hframe.
    simpl. rewrite Hx, slice_to_take by done. fold context. simpl.
    destruct (NgramModel.predict model context) as [r [model' ctx]].
    simpl in Hd, Hframe. injection Hframe as -> ->. subst r. simpl.
    destruct (_ !! x) as [p|].
    + rewrite IH. unfold len. rewrite length_cons. do 2 f_equal. lia.
    + apply IH.
Qed.

(** C8: for a trained model and a corpus of the same order [n],
    [cross_ent] subtracts the [log2] of the predicted probability of the
    last token for exactly those n-grams of [get_ngrams(n, test)] whose
    last token is a key of what [predict] returns for their first [n - 1]
    tokens, in their order, and passes over the others.  It returns the
    total divided by the number of n-grams counted, and that number;
    when none was counted the division raises [ZeroDivisionError]. *)
Theorem cross_ent_scored (model : NgramModel.t) c a (corpus : Corpus.t)
    (n : Z) (test : bool) (st : rng) :
  NgramModel.ngrams model = Some c →
  NgramModel.alphabet model = Some a →
  1 ≤ n → NgramModel.n model = n →
  ∃ grams st',
    Corpus.get_ngrams corpus n test st = Ok (grams, st')
    ∧ let probs := omap (score model n) grams in
      cross_ent model corpus n test st
      = if decide (probs = []) then Raise ZeroDivisionError
        else Ok ((NpFloat64
                    (fdiv_int (foldl (λ x p, fsub x (log2 p)) fzero probs)
                              (len probs)),
                  len probs), st').
Proof.
  intros Hc Ha Hn Hmodel.
  pose proof (get_ngrams_concat corpus n test st Hn) as Hgrams.
  eexists _, _. split; [exact Hgrams|].
  set (grams := concat _) in *. intros probs.
  unfold cross_ent. rewrite Hgrams. simpl.
  rewrite (cross_ent_loop_scored model c a n grams Hc Ha Hn Hmodel).
  - fold probs. simpl. case_decide as Hprobs.
    + by rewrite Hprobs.
    + rewrite scored_value by done. simpl. by rewrite Z.add_0_l.
  - apply Forall_forall. intros g Hg. unfold grams in Hg.
    apply elem_of_concat in Hg as (gs & Hg & Hgs).
    apply list_elem_of_fmap in Hgs as (sent & -> & _).
    by eapply windows_length.
Qed.

End CrossEntropyProperties.

(** With no test sentence there is nothing to score. *)
Example cross_ent_empty_partition :
  cross_ent (F := real_floats) (abc_model 3) abc_corpus 3 true (steady (1 # 2))
  = Raise ZeroDivisionError.
Proof. by vm_compute. Qed.

(** ** The scenario of the specification

    One sentence of ten tokens, order 3, every sample 0.5. *)

Lemma abc_model_ngrams :
  NgramModel.ngrams (abc_model 3) = Some (Counter_of (windows 3 abc_sentence)).
Proof. by vm_compute. Defined.

Lemma abc_model_alphabet :
  NgramModel.alphabet (abc_model 3) = Some (list_to_set abc_sentence).
Proof. by vm_compute. Defined.

Example predict_abc :
  fst (NgramModel.predict (abc_model 3) ["a"; "b"]%string)
  = Ok {["c"%string := 1%Q]}.
Proof. by vm_compute. Qed.

Example predict_abc_longer :
  fst (NgramModel.predict (abc_model 3) ["x"; "a"; "b"]%string)
  = Ok {["c"%string := 1%Q]}.
Proof. by vm_compute. Qed.

Lemma get_ngrams_windows_witness :
  1 ≤ 3
  ∧ Corpus.get_ngrams abc_corpus 3 false (steady (1 # 2))
    = Ok ([["a"; "b"; "c"]; ["b"; "c"; "d"]; ["c"; "d"; "e"]; ["d"; "e"; "f"];
           ["e"; "f"; "g"]; ["f"; "g"; "h"]; ["g"; "h"; "i"];
           ["h"; "i"; "j"]]%string,
          {| draws := λ _, 1 # 2; cursor := 1 |}).
Proof.
  split; [lia|].
  destruct (get_ngrams_windows abc_corpus 3 false (steady (1 # 2))) as [H _];
    [lia|].
  rewrite H. reflexivity.
Defined.

Lemma predict_relative_frequencies_witness :
  NgramModel.ngrams (abc_model 3) = Some (Counter_of (windows 3 abc_sentence))
  ∧ NgramModel.alphabet (abc_model 3) = Some (list_to_set abc_sentence)
  ∧ NgramModel.n (abc_model 3) - 1 ≤ len ["a"; "b"]%string
  ∧ ∃ kept d,
      kept_counts (Counter_of (windows 3 abc_sentence))
        (list_to_set abc_sentence) ["a"; "b"]%string kept
      ∧ fst (NgramModel.predict (abc_model 3) ["a"; "b"]%string) = Ok d
      ∧ (∀ w, is_Some (d !! w)
              ↔ w ∈ (list_to_set abc_sentence : gset token)
                ∧ 0 < count_of (Counter_of (windows 3 abc_sentence))
                        (["a"; "b"]%string ++ [w]))
      ∧ (∀ w q, d !! w = Some q →
           q = relative_frequency kept
                 (count_of (Counter_of (windows 3 abc_sentence))
                    (["a"; "b"]%string ++ [w]))
           ∧ (0 < q)%Q
           ∧ count_of (Counter_of (windows 3 abc_sentence))
               (["a"; "b"]%string ++ [w]) ≠ 0).
Proof.
  split; [exact abc_model_ngrams|]. split; [exact abc_model_alphabet|].
  split; [by vm_compute|].
  apply (predict_relative_frequencies (abc_model 3) _ _ ["a"; "b"]%string
           abc_model_ngrams abc_model_alphabet).
  by vm_compute.
Defined.

Lemma predict_no_match_witness :
  NgramModel.ngrams (abc_model 3) = Some (Counter_of (windows 3 abc_sentence))
  ∧ NgramModel.alphabet (abc_model 3) = Some (list_to_set abc_sentence)
  ∧ NgramModel.n (abc_model 3) - 1 ≤ len ["b"; "a"]%string
  ∧ fst (NgramModel.predict (abc_model 3) ["b"; "a"]%string) = Ok ∅.
Proof.
  assert (Hnone : ∀ w : token, w ∈ (list_to_set abc_sentence : gset token) →
    count_of (Counter_of (windows 3 abc_sentence))
      (NgramModel.truncate (NgramModel.n (abc_model 3)) ["b"; "a"]%string
       ++ [w]) ≤ 0).
  { intros w Hw. apply elem_of_list_to_set in Hw.
    repeat (apply elem_of_cons in Hw as [->|Hw]; [by vm_compute|]).
    by apply elem_of_nil in Hw. }
  split; [exact abc_model_ngrams|]. split; [exact abc_model_alphabet|].
  split; [by vm_compute|].
  apply (predict_no_match (abc_model 3) _ _ ["b"; "a"]%string
           abc_model_ngrams abc_model_alphabet); [by vm_compute|exact Hnone].
Defined.

Lemma predict_sums_to_one_witness :
  NgramModel.ngrams (abc_model 3) = Some (Counter_of (windows 3 abc_sentence))
  ∧ NgramModel.alphabet (abc_model 3) = Some (list_to_set abc_sentence)
  ∧ NgramModel.n (abc_model 3) - 1 ≤ len ["a"; "b"]%string
  ∧ fst (NgramModel.predict (abc_model 3) ["a"; "b"]%string)
    = Ok {["c"%string := 1%Q]}
  ∧ ({["c"%string := 1%Q]} : gmap token Q) ≠ ∅
  ∧ (sum_probabilities {["c"%string := 1%Q]} == 1)%Q.
Proof.
  assert (Hne : ({["c"%string := 1%Q]} : gmap token Q) ≠ ∅).
  { intros E. apply (f_equal (λ m : gmap token Q, m !! "c"%string)) in E.
    by vm_compute in E. }
  assert (Hd : fst (NgramModel.predict (abc_model 3) ["a"; "b"]%string)
               = Ok {["c"%string := 1%Q]}) by (by vm_compute).
  split; [exact abc_model_ngrams|]. split; [exact abc_model_alphabet|].
  split; [by vm_compute|]. split; [exact Hd|]. split; [exact Hne|].
  apply (predict_sums_to_one (abc_model 3) _ _ ["a"; "b"]%string _
           abc_model_ngrams abc_model_alphabet); [by vm_compute|exact Hd|exact Hne].
Defined.

Lemma cross_ent_scored_witness :
  NgramModel.ngrams (abc_model 3) = Some (Counter_of (windows 3 abc_sentence))
  ∧ NgramModel.alphabet (abc_model 3) = Some (list_to_set abc_sentence)
  ∧ 1 ≤ 3
  ∧ NgramModel.n (abc_model 3) = 3
  ∧ ∃ grams st',
      Corpus.get_ngrams abc_corpus 3 false (steady (1 # 2)) = Ok (grams, st')
      ∧ let probs := omap (score (abc_model 3) 3) grams in
        cross_ent (F := real_floats) (abc_model 3) abc_corpus 3 false
          (steady (1 # 2))
        = if decide (probs = []) then Raise ZeroDivisionError
          else Ok ((NpFloat64
                      (fdiv_int (foldl (λ x p, fsub x (log2 p)) fzero probs)
                                (len probs)),
                    len probs), st').
Proof.
  split; [exact abc_model_ngrams|]. split; [exact abc_model_alphabet|].
  split; [lia|]. split; [reflexivity|].
  apply (cross_ent_scored (F := real_floats) (abc_model 3) _ _ abc_corpus 3
           false (steady (1 # 2)) abc_model_ngrams abc_model_alphabet);
    [lia|reflexivity].
Defined.

(** * Further properties of the notebook's code *)

(** ** The partitions of [get_sentences] *)

Lemma get_sentences_loop_sublist (p : Q) (test : bool) (sents : list sentence)
    (st : rng) :
  fst (Corpus.get_sentences_loop p test sents st) `sublist_of` sents.
Proof.
  revert st. induction sents as [|sent rest IH]; intros st; simpl; [done|].
  destruct (Corpus.selected p test st) as [keep st1].
  specialize (IH st1).
  destruct (Corpus.get_sentences_loop p test rest st1) as [out st2].
  simpl in *. destruct keep; by constructor.
Qed.

(** X1: whatever the flag and the samples, [get_sentences] yields
    sentences of the document, each at most once per occurrence and in
    document order. *)
Theorem get_sentences_sublist (corpus : Corpus.t) (test : bool) (st : rng) :
  fst (Corpus.get_sentences corpus test st) `sublist_of` Corpus.doc corpus
  ∧ (length (fst (Corpus.get_sentences corpus test st))
     ≤ length (Corpus.doc corpus))%nat.
Proof.
  pose proof (get_sentences_loop_sublist (Corpus.test_percentage corpus) test
                (Corpus.doc corpus) st) as H.
  split; [exact H|]. by apply sublist_length.
Qed.

Lemma get_sentences_loop_draws (p : Q) (test : bool) (sents : list sentence)
    (st : rng) :
  draws (snd (Corpus.get_sentences_loop p test sents st)) = draws st.
Proof.
  revert st. induction sents as [|sent rest IH]; intros st; simpl; [done|].
  destruct (Corpus.selected p test st) as [keep st1] eqn:E1.
  specialize (IH st1).
  destruct (Corpus.get_sentences_loop p test rest st1) as [out st2].
  simpl in *. rewrite IH.
  destruct test.
  - rewrite selected_test in E1. by injection E1 as _ <-.
  - rewrite selected_train in E1.
    destruct (Qge_bool _ _); by injection E1 as _ <-.
Qed.

Lemma get_sentences_train_cursor (p : Q) (sents : list sentence) (st : rng) :
  (cursor (snd (Corpus.get_sentences_loop p false sents st))
   + length (fst (Corpus.get_sentences_loop p false sents st))
   = cursor st + 2 * length sents)%nat.
Proof.
  revert st. induction sents as [|sent rest IH]; intros st; simpl; [lia|].
  rewrite selected_train.
  destruct (Qge_bool _ _).
  - specialize (IH {| draws := draws st; cursor := S (cursor st) |}).
    destruct (Corpus.get_sentences_loop _ _ _ _) as [out st2].
    simpl in *. lia.
  - specialize (IH {| draws := draws st; cursor := S (S (cursor st)) |}).
    destruct (Corpus.get_sentences_loop _ _ _ _) as [out st2].
    simpl in *. lia.
Qed.

(** X2: the samples [get_sentences] reads.  With [test=True] it reads two
    samples for every sentence of the document.  With [test=False] it reads
    one sample for a sentence it yields and two for a sentence it leaves out.
    The generator's sequence of samples itself is not changed. *)
Theorem get_sentences_samples (corpus : Corpus.t) (st : rng) :
  cursor (snd (Corpus.get_sentences corpus true st))
  = (cursor st + 2 * length (Corpus.doc corpus))%nat
  ∧ (cursor (snd (Corpus.get_sentences corpus false st))
     + length (fst (Corpus.get_sentences corpus false st))
     = cursor st + 2 * length (Corpus.doc corpus))%nat
  ∧ ∀ test, draws (snd (Corpus.get_sentences corpus test st)) = draws st.
Proof.
  unfold Corpus.get_sentences. split; [|split].
  - apply get_sentences_test_cursor.
  - apply get_sentences_train_cursor.
  - intros test. apply get_sentences_loop_draws.
Qed.

Lemma get_sentences_loop_test_pick (p : Q) (sents : list sentence) (st : rng) :
  fst (Corpus.get_sentences_loop p true sents st)
  = omap Datatypes.id (imap (test_pick p st) sents).
Proof.
  revert st. induction sents as [|sent rest IH]; intros st; [done|].
  simpl. rewrite selected_test.
  specialize (IH {| draws := draws st; cursor := S (S (cursor st)) |}).
  destruct (Corpus.get_sentences_loop _ _ _ _) as [out st2]. simpl in *.
  subst out.
  assert (Hrest :
    imap (test_pick p {| draws := draws st; cursor := S (S (cursor st)) |}) rest
    = imap (test_pick p st ∘ S) rest).
  { apply imap_ext. intros i x _. unfold test_pick, compose.
    cbn [draws cursor].
    by replace (S (S (cursor st)) + 2 * i + 1)%nat
      with (cursor st + 2 * S i + 1)%nat by lia. }
  rewrite Hrest. unfold test_pick at 3.
  replace (cursor st + 2 * 0 + 1)%nat with (S (cursor st)) by lia.
  by destruct (Qlt_bool _ _).
Qed.

(** X3: with [test=True] the sentence at index [i] of the document is
    yielded exactly when the sample at offset [2 * i + 1] from the cursor,
    the second of the two read for it, is below [test_percentage]. *)
Theorem get_sentences_test_partition (corpus : Corpus.t) (st : rng) :
  fst (Corpus.get_sentences corpus true st)
  = omap Datatypes.id
      (imap (test_pick (Corpus.test_percentage corpus) st) (Corpus.doc corpus)).
Proof. apply get_sentences_loop_test_pick. Qed.

(** ** The n-grams of [get_ngrams] *)

Lemma windows_count (n : Z) (sent : sentence) :
  len (windows n sent) = ngram_count n sent.
Proof.
  unfold windows, ngram_count, len. destruct (_ <? 10); [done|].
  rewrite length_fmap, length_seqZ. lia.
Qed.

Lemma concat_count {A} (f : list A → Z) (ls : list (list A)) :
  (∀ l, len l = f l) → len (concat ls) = foldr Z.add 0 (f <$> ls).
Proof.
  intros Hf. unfold len in *.
  induction ls as [|l ls IH]; simpl; [done|].
  rewrite length_app, Nat2Z.inj_add, IH, Hf. done.
Qed.

(** X4: for an order [n >= 1], the number of n-grams [get_ngrams] yields is
    the sum, over the sentences [get_sentences] yields, of 0 for a sentence
    of fewer than 10 tokens and of [max(0, len(sentence) - n + 1)]
    otherwise; a sentence shorter than [n] contributes nothing. *)
Theorem get_ngrams_count (corpus : Corpus.t) (n : Z) (test : bool) (st : rng) :
  1 ≤ n →
  ∃ grams st',
    Corpus.get_ngrams corpus n test st = Ok (grams, st')
    ∧ len grams
      = foldr Z.add 0
          (ngram_count n <$> fst (Corpus.get_sentences corpus test st))
    ∧ ∀ sent, len sent < n → Corpus.sentence_ngrams n sent = Ok [].
Proof.
  intros Hn. eexists _, _. split; [by apply get_ngrams_concat|]. split.
  - rewrite (concat_count (λ gs, len gs)) by done.
    rewrite <- list_fmap_compose. f_equal.
    apply list_fmap_ext. intros _ sent _. apply windows_count.
  - intros sent Hlen. rewrite sentence_ngrams_windows by done.
    f_equal. assert (Hc := windows_count n sent).
    unfold ngram_count in Hc.
    destruct (windows n sent); [done|].
    unfold len in *. simpl in Hc. destruct (_ <? 10); lia.
Qed.

Lemma get_ngrams_count_witness :
  1 ≤ 3
  ∧ ∃ grams st',
      Corpus.get_ngrams mixed_corpus 3 false (steady (1 # 2)) = Ok (grams, st')
      ∧ len grams = 18.
Proof.
  split; [lia|].
  destruct (get_ngrams_count mixed_corpus 3 false (steady (1 # 2)))
    as (grams & st' & Hg & Hlen & _); [lia|].
  exists grams, st'. split; [exact Hg|]. rewrite Hlen. reflexivity.
Defined.

Lemma ngram_positions_empty_tuples (sent : sentence) (n : Z) (j : nat) :
  ∀ k : Z, n ≤ 0 → 0 ≤ k → k + Z.of_nat j = len sent →
    Corpus.ngram_positions sent n (seqZ k (Z.of_nat j)) = Ok (replicate j []).
Proof.
  induction j as [|j IH]; intros k Hn Hk Hlen; [done|].
  rewrite seqZ_cons by lia. simpl.
  destruct (Z.ltb_spec (len sent - k) n); [lia|].
  unfold Corpus.ngram_at, range. rewrite (seqZ_nil 0 n) by done. simpl.
  replace (Z.pred (Z.of_nat (S j))) with (Z.of_nat j) by lia.
  by rewrite IH by lia.
Qed.

(** X5: for an order [n <= 0] nothing stops the loop over the positions,
    and a sentence of at least 10 tokens yields one empty tuple for each of
    its tokens. *)
Theorem sentence_ngrams_order_nonpositive (n : Z) (sent : sentence) :
  n ≤ 0 → 10 ≤ len sent →
  Corpus.sentence_ngrams n sent = Ok (replicate (length sent) []).
Proof.
  intros Hn Hlen. unfold Corpus.sentence_ngrams.
  destruct (Z.ltb_spec (len sent) 10); [lia|].
  unfold range, len. by apply ngram_positions_empty_tuples.
Qed.

Lemma sentence_ngrams_order_nonpositive_witness :
  0 ≤ 0 ∧ 10 ≤ len abc_sentence
  ∧ Corpus.sentence_ngrams 0 abc_sentence = Ok (replicate 10 []).
Proof.
  split; [lia|]. split; [by vm_compute|].
  apply (sentence_ngrams_order_nonpositive 0 abc_sentence); [lia|by vm_compute].
Defined.

Lemma window_infix (sent : sentence) (pos n : Z) :
  ∃ pre suf, sent = pre ++ window sent pos n ++ suf.
Proof.
  exists (take (Z.to_nat pos) sent),
         (drop (Z.to_nat n) (drop (Z.to_nat pos) sent)).
  unfold window. by rewrite !take_drop.
Qed.

Lemma windows_infix (n : Z) (sent : sentence) (g : ngram) :
  g ∈ windows n sent → 10 ≤ len sent ∧ ∃ pre suf, sent = pre ++ g ++ suf.
Proof.
  unfold windows. destruct (Z.ltb_spec (len sent) 10);
    [by intros ?%elem_of_nil|].
  intros (pos & -> & _)%list_elem_of_fmap. split; [done|].
  apply window_infix.
Qed.

Lemma get_ngrams_from_sentence (corpus : Corpus.t) (n : Z) (test : bool)
    (st : rng) (grams : list ngram) (st' : rng) (g : ngram) :
  1 ≤ n →
  Corpus.get_ngrams corpus n test st = Ok (grams, st') →
  g ∈ grams →
  ∃ sent, sent ∈ Corpus.doc corpus ∧ g ∈ windows n sent.
Proof.
  intros Hn Hgrams Hg. rewrite get_ngrams_concat in Hgrams by done.
  injection Hgrams as <- _.
  apply elem_of_concat in Hg as (gs & Hg & Hgs).
  apply list_elem_of_fmap in Hgs as (sent & -> & Hsent).
  exists sent. split; [|done].
  eapply elem_of_sublist; [exact Hsent|].
  apply get_sentences_loop_sublist.
Qed.

(** X6: an n-gram of [get_ngrams], for [n >= 1], has [n] tokens and is a
    run of consecutive tokens of one sentence of the document that has at
    least 10 tokens: no n-gram spans two sentences. *)
Theorem get_ngrams_within_sentence (corpus : Corpus.t) (n : Z) (test : bool)
    (st : rng) (grams : list ngram) (st' : rng) (g : ngram) :
  1 ≤ n →
  Corpus.get_ngrams corpus n test st = Ok (grams, st') →
  g ∈ grams →
  len g = n
  ∧ ∃ sent pre suf,
      sent ∈ Corpus.doc corpus ∧ 10 ≤ len sent ∧ sent = pre ++ g ++ suf.
Proof.
  intros Hn Hgrams Hg.
  destruct (get_ngrams_from_sentence corpus n test st grams st' g Hn Hgrams Hg)
    as (sent & Hsent & Hw).
  split; [by eapply windows_length|].
  destruct (windows_infix n sent g Hw) as (Hlen & pre & suf & Heq).
  by exists sent, pre, suf.
Qed.

Lemma get_ngrams_within_sentence_witness :
  1 ≤ 3
  ∧ Corpus.get_ngrams abc_corpus 3 false (steady (1 # 2))
    = Ok (windows 3 abc_sentence, {| draws := λ _, 1 # 2; cursor := 1 |})
  ∧ ["c"; "d"; "e"]%string ∈ windows 3 abc_sentence
  ∧ len ["c"; "d"; "e"]%string = 3
  ∧ ∃ sent pre suf,
      sent ∈ Corpus.doc abc_corpus ∧ 10 ≤ len sent
      ∧ sent = pre ++ ["c"; "d"; "e"]%string ++ suf.
Proof.
  assert (Hg : Corpus.get_ngrams abc_corpus 3 false (steady (1 # 2))
    = Ok (windows 3 abc_sentence, {| draws := λ _, 1 # 2; cursor := 1 |}))
    by (by vm_compute).
  assert (Hin : ["c"; "d"; "e"]%string ∈ windows 3 abc_sentence).
  { vm_compute. do 2 right. left. }
  split; [lia|]. split; [exact Hg|]. split; [exact Hin|].
  apply (get_ngrams_within_sentence abc_corpus 3 false (steady (1 # 2))
           _ _ _ ltac:(lia) Hg Hin).
Defined.

(** ** The tables after [learn] *)

Lemma elem_of_concat_2 {A} (x : A) (l : list A) (ls : list (list A)) :
  x ∈ l → l ∈ ls → x ∈ concat ls.
Proof.
  intros Hx. induction 1 as [l ls|l l' ls _ IH]; simpl; apply elem_of_app.
  - by left.
  - right. by apply IH.
Qed.

Lemma learn_inv (m : NgramModel.t) (corpus : Corpus.t) (st : rng)
    (m' : NgramModel.t) (st' : rng) :
  NgramModel.learn m corpus st = Ok (m', st') →
  ∃ grams,
    Corpus.get_ngrams corpus (NgramModel.n m) false st = Ok (grams, st')
    ∧ m' = {| NgramModel.n := NgramModel.n m;
              NgramModel.ngrams := Some (Counter_of grams);
              NgramModel.alphabet :=
                Some (list_to_set (Corpus.get_words corpus)) |}.
Proof.
  unfold NgramModel.learn.
  destruct (Corpus.get_ngrams _ _ _ _) as [[grams st1]|e]; simpl; [|done].
  intros [= <- <-]. by exists grams.
Qed.

Lemma learn_consistent (m : NgramModel.t) (corpus : Corpus.t) (st : rng)
    (m' : NgramModel.t) (st' : rng) :
  1 ≤ NgramModel.n m →
  NgramModel.learn m corpus st = Ok (m', st') →
  NgramModel.n m' = NgramModel.n m ∧ consistent m'.
Proof.
  intros Hn Hlearn.
  destruct (learn_inv m corpus st m' st' Hlearn) as (grams & Hgrams & ->).
  split; [done|].
  exists (Counter_of grams), (list_to_set (Corpus.get_words corpus)).
  split; [done|]. split; [done|]. simpl.
  intros g k Hk. rewrite Counter_of_lookup in Hk.
  case_decide as Hg; [|done]. injection Hk as <-.
  destruct (get_ngrams_from_sentence corpus _ false st grams st' g Hn Hgrams Hg)
    as (sent & Hsent & Hw).
  split; [by eapply windows_length|].
  split; [pose proof (occurrences_pos g grams Hg); lia|].
  intros w Hwg. apply elem_of_list_to_set. unfold Corpus.get_words.
  apply (elem_of_concat_2 w sent); [|done].
  destruct (windows_infix _ sent g Hw) as (_ & pre & suf & ->).
  rewrite !elem_of_app. tauto.
Qed.

(** X7: after [learn] on a model of order [n >= 1] the two tables agree:
    every n-gram of the count table has [n] tokens and a count of at least
    1, and each of its tokens is in the vocabulary. *)
Theorem learn_table_invariant (m : NgramModel.t) (corpus : Corpus.t) (st : rng)
    (m' : NgramModel.t) (st' : rng) :
  1 ≤ NgramModel.n m →
  NgramModel.learn m corpus st = Ok (m', st') →
  ∃ cnt a,
    NgramModel.ngrams m' = Some cnt
    ∧ NgramModel.alphabet m' = Some a
    ∧ ∀ g k, cnt !! g = Some k →
        len g = NgramModel.n m ∧ 1 ≤ k ∧ ∀ w, w ∈ g → w ∈ a.
Proof.
  intros Hn Hlearn.
  destruct (learn_consistent m corpus st m' st' Hn Hlearn)
    as (Hn' & cnt & a & Hc & Ha & Hinv).
  exists cnt, a. split; [done|]. split; [done|]. by rewrite <- Hn'.
Qed.

Lemma abc_model_learned :
  NgramModel.learn (NgramModel.init 3) abc_corpus (steady (1 # 2))
  = Ok (abc_model 3, {| draws := λ _, 1 # 2; cursor := 1 |}).
Proof. by vm_compute. Qed.

Lemma learn_table_invariant_witness :
  1 ≤ NgramModel.n (NgramModel.init 3)
  ∧ NgramModel.learn (NgramModel.init 3) abc_corpus (steady (1 # 2))
    = Ok (abc_model 3, {| draws := λ _, 1 # 2; cursor := 1 |})
  ∧ ∃ cnt a,
      NgramModel.ngrams (abc_model 3) = Some cnt
      ∧ NgramModel.alphabet (abc_model 3) = Some a
      ∧ ∀ g k, cnt !! g = Some k →
          len g = NgramModel.n (NgramModel.init 3) ∧ 1 ≤ k
          ∧ ∀ w, w ∈ g → w ∈ a.
Proof.
  split; [by vm_compute|]. split; [exact abc_model_learned|].
  apply (learn_table_invariant (NgramModel.init 3) abc_corpus (steady (1 # 2))
           _ _ ltac:(by vm_compute) abc_model_learned).
Defined.

Lemma Counter_total_comm (j1 j2 : ngram) (z1 z2 y : Z) :
  z1 + (z2 + y) = z2 + (z1 + y).
Proof. lia. Qed.

Lemma Counter_total_add (c : Counter) (g : ngram) :
  Counter_total (Counter_add c g) = Counter_total c + 1.
Proof.
  unfold Counter_total, Counter_add.
  destruct (c !! g) as [k|] eqn:E; simpl.
  - rewrite <- insert_delete_eq.
    rewrite map_fold_insert_L;
      [|intros; apply (Counter_total_comm j1 j2)|apply lookup_delete_eq].
    rewrite (map_fold_delete_L _ _ g k c);
      [lia|intros; apply (Counter_total_comm j1 j2)|done].
  - rewrite map_fold_insert_L;
      [lia|intros; apply (Counter_total_comm j1 j2)|done].
Qed.

Lemma Counter_total_from (grams : list ngram) (c : Counter) :
  Counter_total (foldl Counter_add c grams) = Counter_total c + len grams.
Proof.
  revert c. unfold len.
  induction grams as [|g grams IH]; intros c; simpl; [lia|].
  rewrite IH, Counter_total_add. lia.
Qed.

(** X8: [learn] never raises, and the counts of the table it builds add up
    to the number of n-grams that [get_ngrams(n)] yielded for it. *)
Theorem learn_total_count (m : NgramModel.t) (corpus : Corpus.t) (st : rng) :
  ∃ grams st' m' cnt,
    Corpus.get_ngrams corpus (NgramModel.n m) false st = Ok (grams, st')
    ∧ NgramModel.learn m corpus st = Ok (m', st')
    ∧ NgramModel.ngrams m' = Some cnt
    ∧ Counter_total cnt = len grams.
Proof.
  destruct (get_ngrams_total corpus (NgramModel.n m) false st)
    as [grams Hgrams].
  eexists grams, _, _, (Counter_of grams). split; [done|].
  unfold NgramModel.learn. rewrite Hgrams. simpl.
  split; [done|]. split; [done|].
  unfold Counter_of. rewrite Counter_total_from.
  unfold Counter_total. by rewrite map_fold_empty.
Qed.

Lemma abc_model_consistent (n : Z) :
  1 ≤ n → NgramModel.n (abc_model n) = n ∧ consistent (abc_model n).
Proof.
  intros Hn. unfold abc_model.
  destruct (NgramModel.learn (NgramModel.init n) abc_corpus (steady (1 # 2)))
    as [[m st']|e] eqn:E.
  - by apply learn_consistent in E.
  - unfold NgramModel.learn in E.
    destruct (get_ngrams_total abc_corpus (NgramModel.n (NgramModel.init n))
                false (steady (1 # 2))) as [grams Hg].
    by rewrite Hg in E.
Qed.

(** ** What [predict] returns *)

Lemma predict_empty (self : NgramModel.t) c a (context : list token) :
  NgramModel.ngrams self = Some c →
  NgramModel.alphabet self = Some a →
  NgramModel.n self - 1 ≤ len context →
  (∀ w, w ∈ a →
     count_of c (NgramModel.truncate (NgramModel.n self) context ++ [w]) ≤ 0) →
  fst (NgramModel.predict self context) = Ok ∅.
Proof.
  intros Hc Ha Hlen Hnone.
  destruct (predict_trained self c a context Hc Ha Hlen)
    as (kept & Hkept & _ & ->).
  assert (kept = ∅) as ->; [|by rewrite fmap_empty].
  apply map_eq. intros w. rewrite lookup_empty.
  destruct (kept !! w) as [k|] eqn:E; [|done].
  apply Hkept in E as (Hw & <- & Hk). apply Hnone in Hw. lia.
Qed.

Lemma predict_seen (self : NgramModel.t) c a (context : list token) (w : token) :
  NgramModel.ngrams self = Some c →
  NgramModel.alphabet self = Some a →
  len context = NgramModel.n self - 1 →
  w ∈ a → 0 < count_of c (context ++ [w]) →
  ∃ d q, fst (NgramModel.predict self context) = Ok d
         ∧ d !! w = Some q ∧ (0 < q)%Q.
Proof.
  intros Hc Ha Hlen Hw Hpos.
  destruct (predict_trained self c a context Hc Ha ltac:(lia))
    as (kept & Hkept & Hall & Hd).
  rewrite truncate_exact in Hkept by done.
  assert (Hk : kept !! w = Some (count_of c (context ++ [w])))
    by (by apply Hkept).
  eexists _, _. split; [exact Hd|]. split.
  - by rewrite lookup_fmap, Hk.
  - apply relative_frequency_pos; [done|].
    apply sum_counts_pos; [done|]. intros ->. by rewrite lookup_empty in Hk.
Qed.

(** X9: what [learn] has counted, [predict] gives back.  For an order
    [n >= 1], if the n-gram [context + (w,)] is among the n-grams the model
    learned from, then [predict(context)] returns a mapping in which [w] has
    a probability above 0. *)
Theorem learn_predict_round_trip (m : NgramModel.t) (corpus : Corpus.t)
    (st : rng) (m' : NgramModel.t) (st' : rng) (grams : list ngram)
    (context : list token) (w : token) :
  1 ≤ NgramModel.n m →
  NgramModel.learn m corpus st = Ok (m', st') →
  Corpus.get_ngrams corpus (NgramModel.n m) false st = Ok (grams, st') →
  context ++ [w] ∈ grams →
  ∃ d q, fst (NgramModel.predict m' context) = Ok d
         ∧ d !! w = Some q ∧ (0 < q)%Q.
Proof.
  intros Hn Hlearn Hgrams Hg.
  destruct (learn_consistent m corpus st m' st' Hn Hlearn)
    as (Hn' & cnt & a & Hc & Ha & Hinv).
  destruct (learn_inv m corpus st m' st' Hlearn) as (grams' & Hgrams' & Hm').
  rewrite Hgrams in Hgrams'. injection Hgrams' as <-.
  assert (Hcnt : cnt = Counter_of grams) by (subst m'; simpl in Hc; congruence).
  assert (Hk : cnt !! (context ++ [w])
               = Some (occurrences (context ++ [w]) grams)).
  { rewrite Hcnt, Counter_of_lookup. by rewrite decide_True. }
  destruct (Hinv _ _ Hk) as (Hlen & Hpos & Htok).
  apply (predict_seen m' cnt a); try done.
  - unfold len in *. rewrite length_app in Hlen. simpl in Hlen. lia.
  - apply Htok. apply elem_of_app. right. left.
  - unfold count_of, Counter_getitem. cbn [fst].
    pose proof (f_equal (default 0) Hk) as Hk0. simpl in Hk0.
    eapply Z.lt_le_trans; [|apply Z.eq_le_incl; symmetry; exact Hk0]. lia.
Qed.

Lemma learn_predict_round_trip_witness :
  1 ≤ NgramModel.n (NgramModel.init 3)
  ∧ NgramModel.learn (NgramModel.init 3) abc_corpus (steady (1 # 2))
    = Ok (abc_model 3, {| draws := λ _, 1 # 2; cursor := 1 |})
  ∧ Corpus.get_ngrams abc_corpus (NgramModel.n (NgramModel.init 3)) false
      (steady (1 # 2))
    = Ok (windows 3 abc_sentence, {| draws := λ _, 1 # 2; cursor := 1 |})
  ∧ ["g"; "h"]%string ++ ["i"%string] ∈ windows 3 abc_sentence
  ∧ ∃ d q, fst (NgramModel.predict (abc_model 3) ["g"; "h"]%string) = Ok d
           ∧ d !! "i"%string = Some q ∧ (0 < q)%Q.
Proof.
  assert (Hg : Corpus.get_ngrams abc_corpus
                 (NgramModel.n (NgramModel.init 3)) false (steady (1 # 2))
    = Ok (windows 3 abc_sentence, {| draws := λ _, 1 # 2; cursor := 1 |}))
    by (by vm_compute).
  assert (Hin : ["g"; "h"]%string ++ ["i"%string] ∈ windows 3 abc_sentence).
  { vm_compute. do 6 right. left. }
  split; [by vm_compute|]. split; [exact abc_model_learned|].
  split; [exact Hg|]. split; [exact Hin|].
  apply (learn_predict_round_trip (NgramModel.init 3) abc_corpus
           (steady (1 # 2)) _ _ _ _ _ ltac:(by vm_compute)
           abc_model_learned Hg Hin).
Defined.

Lemma elem_le_sum (l : list Z) (k : Z) :
  (∀ x, x ∈ l → 0 < x) → k ∈ l → k ≤ foldr Z.add 0 l.
Proof.
  induction l as [|x l IH]; intros Hall Hk; [by apply elem_of_nil in Hk|].
  simpl. assert (0 < x) by (apply Hall; left).
  assert (Hrest : ∀ y, y ∈ l → 0 < y) by (intros; apply Hall; by right).
  apply elem_of_cons in Hk as [->|Hk].
  - destruct l as [|y l']; [simpl; lia|].
    pose proof (sum_positive (y :: l') Hrest ltac:(done)). lia.
  - pose proof (IH Hrest Hk). lia.
Qed.

Lemma relative_frequency_le_1 (kept : gmap token Z) (w : token) (k : Z) :
  (∀ w k, kept !! w = Some k → 0 < k) →
  kept !! w = Some k →
  (relative_frequency kept k <= 1)%Q.
Proof.
  intros Hall Hk.
  assert (kept ≠ ∅) by (intros ->; by rewrite lookup_empty in Hk).
  assert (0 < sum_counts kept) by (by apply sum_counts_pos).
  assert (k ≤ sum_counts kept).
  { unfold sum_counts. apply elem_le_sum.
    - intros x ([w' x'] & -> & Hin)%list_elem_of_fmap.
      apply elem_of_map_to_list in Hin. by eapply Hall.
    - apply list_elem_of_fmap. exists (w, k). split; [done|].
      by apply elem_of_map_to_list. }
  unfold relative_frequency. apply Qle_shift_div_r.
  - by apply inject_Z_pos.
  - rewrite Qmult_1_l. by rewrite <- Zle_Qle.
Qed.

(** X10: for a trained model and a context of at least [n - 1] tokens,
    every word [predict] returns is a word of the vocabulary, every
    probability is above 0 and at most 1, and the result has no more words
    than the vocabulary. *)
Theorem predict_bounds (self : NgramModel.t) c a (context : list token)
    (d : gmap token Q) :
  NgramModel.ngrams self = Some c →
  NgramModel.alphabet self = Some a →
  NgramModel.n self - 1 ≤ len context →
  fst (NgramModel.predict self context) = Ok d →
  (∀ w q, d !! w = Some q → w ∈ a ∧ (0 < q)%Q ∧ (q <= 1)%Q)
  ∧ (size d ≤ size a)%nat.
Proof.
  intros Hc Ha Hlen Hd.
  destruct (predict_trained self c a context Hc Ha Hlen)
    as (kept & Hkept & Hall & Hd').
  rewrite Hd' in Hd. injection Hd as <-.
  assert (Hkeys : ∀ w q, (relative_frequency kept <$> kept) !! w = Some q →
    w ∈ a ∧ (0 < q)%Q ∧ (q <= 1)%Q).
  { intros w q Hq. apply lookup_fmap_Some in Hq as (k & <- & Hk).
    split; [apply Hkept in Hk; tauto|]. split.
    - apply relative_frequency_pos; [by eapply Hall|].
      apply sum_counts_pos; [done|]. intros ->. by rewrite lookup_empty in Hk.
    - by eapply relative_frequency_le_1. }
  split; [exact Hkeys|].
  rewrite <- size_dom. apply subseteq_size.
  intros w [q Hq]%elem_of_dom. by apply Hkeys in Hq as [? _].
Qed.

Lemma predict_bounds_witness :
  NgramModel.ngrams (abc_model 3) = Some (Counter_of (windows 3 abc_sentence))
  ∧ NgramModel.alphabet (abc_model 3) = Some (list_to_set abc_sentence)
  ∧ NgramModel.n (abc_model 3) - 1 ≤ len ["a"; "b"]%string
  ∧ fst (NgramModel.predict (abc_model 3) ["a"; "b"]%string)
    = Ok {["c"%string := 1%Q]}
  ∧ (∀ w q, ({["c"%string := 1%Q]} : gmap token Q) !! w = Some q →
       w ∈ (list_to_set abc_sentence : gset token) ∧ (0 < q)%Q ∧ (q <= 1)%Q)
  ∧ (size ({["c"%string := 1%Q]} : gmap token Q)
     ≤ size (list_to_set abc_sentence : gset token))%nat.
Proof.
  assert (Hd : fst (NgramModel.predict (abc_model 3) ["a"; "b"]%string)
               = Ok {["c"%string := 1%Q]}) by (by vm_compute).
  split; [exact abc_model_ngrams|]. split; [exact abc_model_alphabet|].
  split; [by vm_compute|]. split; [exact Hd|].
  apply (predict_bounds (abc_model 3) _ _ ["a"; "b"]%string _
           abc_model_ngrams abc_model_alphabet ltac:(by vm_compute) Hd).
Defined.

(** X11: from the order 2 on, [predict] looks at the last [n - 1] tokens
    of the context only: two contexts of at least [n - 1] tokens that end in
    the same [n - 1] tokens give the same result, for any model. *)
Theorem predict_last_tokens_only (self : NgramModel.t)
    (context1 context2 : list token) :
  2 ≤ NgramModel.n self →
  NgramModel.n self - 1 ≤ len context1 →
  NgramModel.n self - 1 ≤ len context2 →
  last_tokens (NgramModel.n self - 1) context1
  = last_tokens (NgramModel.n self - 1) context2 →
  fst (NgramModel.predict self context1)
  = fst (NgramModel.predict self context2).
Proof.
  intros Hn H1 H2 Hlast.
  apply predict_result_ext; [done..|].
  rewrite !truncate_last by done. exact Hlast.
Qed.

Lemma predict_last_tokens_only_witness :
  2 ≤ NgramModel.n (abc_model 3)
  ∧ NgramModel.n (abc_model 3) - 1 ≤ len ["x"; "y"; "a"; "b"]%string
  ∧ NgramModel.n (abc_model 3) - 1 ≤ len ["c"; "a"; "b"]%string
  ∧ last_tokens (NgramModel.n (abc_model 3) - 1) ["x"; "y"; "a"; "b"]%string
    = last_tokens (NgramModel.n (abc_model 3) - 1) ["c"; "a"; "b"]%string
  ∧ fst (NgramModel.predict (abc_model 3) ["x"; "y"; "a"; "b"]%string)
    = fst (NgramModel.predict (abc_model 3) ["c"; "a"; "b"]%string).
Proof.
  split; [by vm_compute|]. split; [by vm_compute|]. split; [by vm_compute|].
  split; [reflexivity|].
  apply (predict_last_tokens_only (abc_model 3)); by vm_compute.
Defined.

Lemma consistent_absent (m : NgramModel.t) cnt (g : ngram) :
  consistent m → NgramModel.ngrams m = Some cnt →
  len g ≠ NgramModel.n m → count_of cnt g = 0.
Proof.
  intros (cnt' & a & Hc & _ & Hinv) Hcnt Hlen.
  assert (cnt' = cnt) as -> by congruence.
  unfold count_of, Counter_getitem. cbn [fst].
  destruct (cnt !! g) as [k|] eqn:E; [|done].
  apply Hinv in E as [? _]. done.
Qed.

Lemma consistent_unknown (m : NgramModel.t) cnt a (g : ngram) (t : token) :
  consistent m → NgramModel.ngrams m = Some cnt →
  NgramModel.alphabet m = Some a →
  t ∈ g → t ∉ a → count_of cnt g = 0.
Proof.
  intros (cnt' & a' & Hc & Ha & Hinv) Hcnt Halph Ht Hna.
  assert (cnt' = cnt) as -> by congruence.
  assert (a' = a) as -> by congruence.
  unfold count_of, Counter_getitem. cbn [fst].
  destruct (cnt !! g) as [k|] eqn:E; [|done].
  apply Hinv in E as (_ & _ & Htok). by apply Htok in Ht.
Qed.

(** X12: there is no handling of unknown words.  For a model whose tables
    agree, as they do after [learn], and a context of at least [n - 1]
    tokens: if a token of the context that [predict] keeps is not in the
    vocabulary, the result is the empty mapping. *)
Theorem predict_unknown_token (self : NgramModel.t) (context : list token)
    (a : gset token) (t : token) :
  consistent self →
  NgramModel.alphabet self = Some a →
  NgramModel.n self - 1 ≤ len context →
  t ∈ NgramModel.truncate (NgramModel.n self) context →
  t ∉ a →
  fst (NgramModel.predict self context) = Ok ∅.
Proof.
  intros Hcons Ha Hlen Ht Hna.
  pose proof Hcons as (cnt & a' & Hc & Ha' & Hinv).
  apply (predict_empty self cnt a); try done.
  intros w _. apply Z.eq_le_incl.
  apply (consistent_unknown self cnt a _ t); try done.
  apply elem_of_app. by left.
Qed.

Lemma predict_unknown_token_witness :
  consistent (abc_model 3)
  ∧ NgramModel.alphabet (abc_model 3) = Some (list_to_set abc_sentence)
  ∧ NgramModel.n (abc_model 3) - 1 ≤ len ["a"; "zz"]%string
  ∧ ("zz"%string
     ∈ NgramModel.truncate (NgramModel.n (abc_model 3)) ["a"; "zz"]%string)
  ∧ ("zz"%string ∉ (list_to_set abc_sentence : gset token))
  ∧ fst (NgramModel.predict (abc_model 3) ["a"; "zz"]%string) = Ok ∅.
Proof.
  assert (Hcons : consistent (abc_model 3))
    by (apply abc_model_consistent; lia).
  assert (Hin : "zz"%string
    ∈ NgramModel.truncate (NgramModel.n (abc_model 3)) ["a"; "zz"]%string).
  { vm_compute. right. left. }
  assert (Hnot : "zz"%string ∉ (list_to_set abc_sentence : gset token)).
  { apply (bool_decide_unpack _). by vm_compute. }
  split; [exact Hcons|]. split; [exact abc_model_alphabet|].
  split; [by vm_compute|]. split; [exact Hin|]. split; [exact Hnot|].
  apply (predict_unknown_token (abc_model 3) ["a"; "zz"]%string _
           "zz"%string Hcons abc_model_alphabet ltac:(by vm_compute) Hin Hnot).
Defined.

(** X13: a model of order 1 whose tables agree, as they do after [learn],
    returns the empty mapping for every context that is not empty: the slice
    in [predict] keeps the whole context, and no key of the table has more
    than one token. *)
Theorem predict_unigram_nonempty_context (self : NgramModel.t)
    (context : list token) :
  consistent self →
  NgramModel.n self = 1 →
  context ≠ [] →
  fst (NgramModel.predict self context) = Ok ∅.
Proof.
  intros Hcons Hn Hne.
  pose proof Hcons as (cnt & a & Hc & Ha & Hinv).
  apply (predict_empty self cnt a); try done.
  - rewrite Hn. unfold len. lia.
  - intros w _. apply Z.eq_le_incl.
    apply (consistent_absent self); try done.
    rewrite Hn, truncate_unigram. unfold len. rewrite length_app. simpl.
    destruct context; [done|]. simpl. lia.
Qed.

Lemma predict_unigram_nonempty_context_witness :
  consistent (abc_model 1)
  ∧ NgramModel.n (abc_model 1) = 1
  ∧ ["a"; "b"]%string ≠ []
  ∧ fst (NgramModel.predict (abc_model 1) ["a"; "b"]%string) = Ok ∅.
Proof.
  assert (Hcons : consistent (abc_model 1))
    by (apply abc_model_consistent; lia).
  split; [exact Hcons|]. split; [reflexivity|]. split; [discriminate|].
  apply (predict_unigram_nonempty_context (abc_model 1) _ Hcons);
    [reflexivity|discriminate].
Defined.

(** ** What [cross_ent] and [eval] return or raise *)

Lemma omap_length_le {A B} (f : A → option B) (l : list A) :
  (length (omap f l) ≤ length l)%nat.
Proof.
  induction l as [|x l IH]; [done|].
  change (omap f (x :: l))
    with (match f x with Some y => y :: omap f l | None => omap f l end).
  destruct (f x); simpl; lia.
Qed.

Lemma omap_length_all {A B} (f : A → option B) (l : list A) :
  (∀ x, x ∈ l → is_Some (f x)) → length (omap f l) = length l.
Proof.
  induction l as [|x l IH]; intros Hall; [done|].
  change (omap f (x :: l))
    with (match f x with Some y => y :: omap f l | None => omap f l end).
  destruct (Hall x) as [y ->]; [left|]. simpl.
  rewrite IH; [done|]. intros; apply Hall; by right.
Qed.

Section CrossEntropyOutcomes.
Context {F : FloatOps}.

Lemma cross_ent_outcome (model : NgramModel.t) c a (corpus : Corpus.t)
    (n : Z) (test : bool) (st : rng) (grams : list ngram) (st' : rng) :
  NgramModel.ngrams model = Some c →
  NgramModel.alphabet model = Some a →
  1 ≤ n → NgramModel.n model = n →
  Corpus.get_ngrams corpus n test st = Ok (grams, st') →
  cross_ent model corpus n test st
  = if decide (omap (score model n) grams = []) then Raise ZeroDivisionError
    else Ok ((NpFloat64
                (fdiv_int (foldl (λ x p, fsub x (log2 p)) fzero
                             (omap (score model n) grams))
                          (len (omap (score model n) grams))),
              len (omap (score model n) grams)), st').
Proof.
  intros Hc Ha Hn Hmodel Hgrams.
  unfold cross_ent. rewrite Hgrams. simpl.
  rewrite (cross_ent_loop_scored model c a n grams Hc Ha Hn Hmodel).
  - simpl. case_decide as Hprobs.
    + by rewrite Hprobs.
    + rewrite scored_value by done. simpl. by rewrite Z.add_0_l.
  - apply Forall_forall. intros g Hg.
    rewrite get_ngrams_concat in Hgrams by done. injection Hgrams as <- _.
    apply elem_of_concat in Hg as (gs & Hg & Hgs).
    apply list_elem_of_fmap in Hgs as (sent & -> & _).
    by eapply windows_length.
Qed.

(** X14: when [cross_ent], for a trained model of the same order
    [n >= 1], returns, the count it returns is at least 1 and at most the
    number of n-grams of the partition, and the score is a [numpy.float64]:
    the Python float [0.0] it starts from is never returned. *)
Theorem cross_ent_count_bounds (model : NgramModel.t) c a (corpus : Corpus.t)
    (n : Z) (test : bool) (st : rng) (score_ : pyfloat) (count : Z)
    (st' : rng) :
  NgramModel.ngrams model = Some c →
  NgramModel.alphabet model = Some a →
  1 ≤ n → NgramModel.n model = n →
  cross_ent model corpus n test st = Ok ((score_, count), st') →
  ∃ grams x,
    Corpus.get_ngrams corpus n test st = Ok (grams, st')
    ∧ 1 ≤ count ≤ len grams
    ∧ score_ = NpFloat64 x.
Proof.
  intros Hc Ha Hn Hmodel Hce.
  pose proof (get_ngrams_concat corpus n test st Hn) as Hgrams.
  rewrite (cross_ent_outcome model c a corpus n test st _ _
             Hc Ha Hn Hmodel Hgrams) in Hce.
  case_decide as Hprobs; [done|]. injection Hce as <- <- <-.
  eexists _, _. split; [exact Hgrams|]. split; [|done].
  pose proof (omap_length_le (score model n)
    (concat (windows n <$> (Corpus.get_sentences corpus test st).1))).
  unfold len. destruct (omap _ _); [done|]. simpl in *. lia.
Qed.

Lemma score_seen (model : NgramModel.t) c a (n : Z) (g : ngram) :
  consistent model →
  NgramModel.ngrams model = Some c →
  NgramModel.alphabet model = Some a →
  1 ≤ n → NgramModel.n model = n →
  is_Some (c !! g) →
  is_Some (score model n g).
Proof.
  intros (c' & a' & Hc' & Ha' & Hinv) Hc Ha Hn Hmodel [k Hk].
  assert (c' = c) as -> by congruence. assert (a' = a) as -> by congruence.
  destruct (Hinv g k Hk) as (Hlen & Hpos & Htok).
  destruct (getitem_last g n Hn ltac:(lia)) as (w & Hlast & _).
  assert (Hg : g = take (Z.to_nat (n - 1)) g ++ [w]).
  { rewrite <- (take_drop (Z.to_nat (n - 1)) g) at 1. f_equal.
    apply last_Some in Hlast as [l' ->].
    unfold len in *. rewrite length_app in *. simpl in *.
    rewrite drop_app_length'; [done|lia]. }
  destruct (predict_seen model c a (take (Z.to_nat (n - 1)) g) w Hc Ha)
    as (d & q & Hd & Hq & _).
  - unfold len in *. rewrite length_take. lia.
  - apply Htok. rewrite Hg. apply elem_of_app. right. left.
  - rewrite <- Hg. unfold count_of, Counter_getitem. cbn [fst].
    pose proof (f_equal (default 0) Hk) as Hk0. simpl in Hk0.
    eapply Z.lt_le_trans; [|apply Z.eq_le_incl; symmetry; exact Hk0]. lia.
  - unfold score. rewrite Hd, Hlast. simpl. by rewrite Hq.
Qed.

(** X15: n-grams the model has counted are always scored.  For a model of
    order [n >= 1] whose tables agree, as they do after [learn]: if every
    n-gram of the partition is a key of the count table and there is at
    least one, [cross_ent] returns, and the count it returns is the number
    of n-grams of the partition. *)
Theorem cross_ent_full_coverage (model : NgramModel.t) c a (corpus : Corpus.t)
    (n : Z) (test : bool) (st : rng) (grams : list ngram) (st' : rng) :
  consistent model →
  NgramModel.ngrams model = Some c →
  NgramModel.alphabet model = Some a →
  1 ≤ n → NgramModel.n model = n →
  Corpus.get_ngrams corpus n test st = Ok (grams, st') →
  grams ≠ [] →
  (∀ g, g ∈ grams → is_Some (c !! g)) →
  ∃ x, cross_ent model corpus n test st = Ok ((NpFloat64 x, len grams), st').
Proof.
  intros Hcons Hc Ha Hn Hmodel Hgrams Hne Hall.
  rewrite (cross_ent_outcome model c a corpus n test st grams st'
             Hc Ha Hn Hmodel Hgrams).
  assert (Hlen : length (omap (score model n) grams) = length grams).
  { apply omap_length_all. intros g Hg.
    apply (score_seen model c a); try done. by apply Hall. }
  case_decide as Hprobs.
  - rewrite Hprobs in Hlen. by destruct grams.
  - unfold len. rewrite Hlen. by eexists.
Qed.

(** X16: a partition without n-grams, or one of which [predict] returns
    no last token, makes [cross_ent] raise [ZeroDivisionError] for a trained
    model of the same order [n >= 1]; it raises nothing else. *)
Theorem cross_ent_raises (model : NgramModel.t) c a (corpus : Corpus.t)
    (n : Z) (test : bool) (st : rng) (e : exn) :
  NgramModel.ngrams model = Some c →
  NgramModel.alphabet model = Some a →
  1 ≤ n → NgramModel.n model = n →
  cross_ent model corpus n test st = Raise e →
  e = ZeroDivisionError
  ∧ ∃ grams st',
      Corpus.get_ngrams corpus n test st = Ok (grams, st')
      ∧ ∀ g, g ∈ grams → score model n g = None.
Proof.
  intros Hc Ha Hn Hmodel Hce.
  pose proof (get_ngrams_concat corpus n test st Hn) as Hgrams.
  rewrite (cross_ent_outcome model c a corpus n test st _ _
             Hc Ha Hn Hmodel Hgrams) in Hce.
  case_decide as Hprobs; [|done]. injection Hce as <-.
  split; [done|]. eexists _, _. split; [exact Hgrams|].
  intros g Hg. destruct (score model n g) as [q|] eqn:E; [|done].
  assert (q ∈ omap (score model n)
    (concat (windows n <$> (Corpus.get_sentences corpus test st).1))).
  { apply list_elem_of_omap. by exists g. }
  rewrite Hprobs in H. by apply elem_of_nil in H.
Qed.

(** X17: a model of a higher order cannot be evaluated on shorter
    n-grams.  If [1 <= n < model.n] and the partition has at least one
    n-gram, [cross_ent] raises the [ValueError] of [predict]. *)
Theorem cross_ent_order_mismatch (model : NgramModel.t) (corpus : Corpus.t)
    (n : Z) (test : bool) (st : rng) (g : ngram) (grams : list ngram)
    (st' : rng) :
  1 ≤ n → n < NgramModel.n model →
  Corpus.get_ngrams corpus n test st = Ok (g :: grams, st') →
  cross_ent model corpus n test st = Raise ValueError.
Proof.
  intros Hn Hlt Hgrams.
  assert (Hg : len g = n).
  { rewrite get_ngrams_concat in Hgrams by done. injection Hgrams as Hg _.
    assert (Hin : g ∈ concat
      (windows n <$> (Corpus.get_sentences corpus test st).1))
      by (rewrite Hg; left).
    apply elem_of_concat in Hin as (gs & Hin & Hgs).
    apply list_elem_of_fmap in Hgs as (sent & -> & _).
    by eapply windows_length. }
  unfold cross_ent. rewrite Hgrams. simpl.
  destruct (getitem_last g n Hn Hg) as (w & _ & ->). simpl.
  rewrite slice_to_take by done.
  unfold NgramModel.predict.
  destruct (Z.ltb_spec (len (take (Z.to_nat (n - 1)) g))
              (NgramModel.n model - 1)) as [_|Hge]; [done|].
  unfold len in Hge. rewrite length_take in Hge. lia.
Qed.

(** X18: a model that has not learned cannot be evaluated.  For
    [NgramModel(n)] with [n >= 1], [cross_ent] raises [TypeError] at the
    first n-gram of the partition, and [ZeroDivisionError] if the partition
    has none. *)
Theorem cross_ent_untrained (corpus : Corpus.t) (n : Z) (test : bool)
    (st : rng) (grams : list ngram) (st' : rng) :
  1 ≤ n →
  Corpus.get_ngrams corpus n test st = Ok (grams, st') →
  cross_ent (NgramModel.init n) corpus n test st
  = Raise (match grams with [] => ZeroDivisionError | _ :: _ => TypeError end).
Proof.
  intros Hn Hgrams. unfold cross_ent. rewrite Hgrams. simpl.
  destruct grams as [|g grams]; [done|].
  assert (Hg : len g = n).
  { rewrite get_ngrams_concat in Hgrams by done. injection Hgrams as Hg _.
    assert (Hin : g ∈ concat
      (windows n <$> (Corpus.get_sentences corpus test st).1))
      by (rewrite Hg; left).
    apply elem_of_concat in Hin as (gs & Hin & Hgs).
    apply list_elem_of_fmap in Hgs as (sent & -> & _).
    by eapply windows_length. }
  simpl. destruct (getitem_last g n Hn Hg) as (w & _ & ->). simpl.
  rewrite slice_to_take by done.
  unfold NgramModel.predict. simpl.
  destruct (Z.ltb_spec (len (take (Z.to_nat (n - 1)) g)) (n - 1)) as [Hlt|_];
    [|done].
  unfold len in Hlt. rewrite length_take in Hlt. unfold len in Hg. lia.
Qed.

End CrossEntropyOutcomes.

Lemma abc_get_ngrams (test : bool) :
  Corpus.get_ngrams abc_corpus 3 test (steady (1 # 2))
  = Ok (if test then [] else windows 3 abc_sentence,
        {| draws := λ _, 1 # 2; cursor := if test then 2 else 1 |}%nat).
Proof. destruct test; by vm_compute. Qed.

Lemma abc_cross_ent :
  cross_ent (F := real_floats) (abc_model 3) abc_corpus 3 false (steady (1 # 2))
  = Ok ((abc_score, 8), {| draws := λ _, 1 # 2; cursor := 1 |}).
Proof.
  rewrite (cross_ent_outcome (abc_model 3) _ _ abc_corpus 3 false _ _ _
             abc_model_ngrams abc_model_alphabet ltac:(lia) eq_refl
             (abc_get_ngrams false)).
  by vm_compute.
Qed.

Lemma cross_ent_count_bounds_witness :
  NgramModel.ngrams (abc_model 3) = Some (Counter_of (windows 3 abc_sentence))
  ∧ NgramModel.alphabet (abc_model 3) = Some (list_to_set abc_sentence)
  ∧ 1 ≤ 3
  ∧ NgramModel.n (abc_model 3) = 3
  ∧ cross_ent (F := real_floats) (abc_model 3) abc_corpus 3 false
      (steady (1 # 2))
    = Ok ((abc_score, 8), {| draws := λ _, 1 # 2; cursor := 1 |})
  ∧ ∃ grams x,
      Corpus.get_ngrams abc_corpus 3 false (steady (1 # 2))
      = Ok (grams, {| draws := λ _, 1 # 2; cursor := 1 |})
      ∧ 1 ≤ 8 ≤ len grams
      ∧ abc_score = NpFloat64 x.
Proof.
  split; [exact abc_model_ngrams|]. split; [exact abc_model_alphabet|].
  split; [lia|]. split; [reflexivity|]. split; [exact abc_cross_ent|].
  apply (cross_ent_count_bounds (F := real_floats) (abc_model 3) _ _
           abc_corpus 3 false (steady (1 # 2)) _ _ _
           abc_model_ngrams abc_model_alphabet ltac:(lia) eq_refl
           abc_cross_ent).
Defined.

Lemma abc_windows_counted (g : ngram) :
  g ∈ windows 3 abc_sentence →
  is_Some (Counter_of (windows 3 abc_sentence) !! g).
Proof. intros Hg. rewrite Counter_of_lookup. by rewrite decide_True. Qed.

Lemma cross_ent_full_coverage_witness :
  consistent (abc_model 3)
  ∧ NgramModel.ngrams (abc_model 3) = Some (Counter_of (windows 3 abc_sentence))
  ∧ NgramModel.alphabet (abc_model 3) = Some (list_to_set abc_sentence)
  ∧ 1 ≤ 3
  ∧ NgramModel.n (abc_model 3) = 3
  ∧ Corpus.get_ngrams abc_corpus 3 false (steady (1 # 2))
    = Ok (windows 3 abc_sentence, {| draws := λ _, 1 # 2; cursor := 1 |})
  ∧ windows 3 abc_sentence ≠ []
  ∧ (∀ g, g ∈ windows 3 abc_sentence →
       is_Some (Counter_of (windows 3 abc_sentence) !! g))
  ∧ ∃ x, cross_ent (F := real_floats) (abc_model 3) abc_corpus 3 false
           (steady (1 # 2))
         = Ok ((NpFloat64 x, len (windows 3 abc_sentence)),
               {| draws := λ _, 1 # 2; cursor := 1 |}).
Proof.
  assert (Hcons : consistent (abc_model 3))
    by (apply abc_model_consistent; lia).
  assert (Hne : windows 3 abc_sentence ≠ []) by (by vm_compute).
  split; [exact Hcons|].
  split; [exact abc_model_ngrams|]. split; [exact abc_model_alphabet|].
  split; [lia|]. split; [reflexivity|].
  split; [exact (abc_get_ngrams false)|]. split; [exact Hne|].
  split; [exact abc_windows_counted|].
  apply (cross_ent_full_coverage (F := real_floats) (abc_model 3) _ _
           abc_corpus 3 false (steady (1 # 2)) _ _ Hcons
           abc_model_ngrams abc_model_alphabet ltac:(lia) eq_refl
           (abc_get_ngrams false) Hne abc_windows_counted).
Defined.

Lemma cross_ent_raises_witness :
  NgramModel.ngrams (abc_model 3) = Some (Counter_of (windows 3 abc_sentence))
  ∧ NgramModel.alphabet (abc_model 3) = Some (list_to_set abc_sentence)
  ∧ 1 ≤ 3
  ∧ NgramModel.n (abc_model 3) = 3
  ∧ cross_ent (F := real_floats) (abc_model 3) abc_corpus 3 true
      (steady (1 # 2))
    = Raise ZeroDivisionError
  ∧ ZeroDivisionError = ZeroDivisionError
  ∧ ∃ grams st',
      Corpus.get_ngrams abc_corpus 3 true (steady (1 # 2)) = Ok (grams, st')
      ∧ ∀ g, g ∈ grams → score (abc_model 3) 3 g = None.
Proof.
  split; [exact abc_model_ngrams|]. split; [exact abc_model_alphabet|].
  split; [lia|]. split; [reflexivity|].
  split; [exact cross_ent_empty_partition|].
  apply (cross_ent_raises (F := real_floats) (abc_model 3) _ _
           abc_corpus 3 true (steady (1 # 2)) _
           abc_model_ngrams abc_model_alphabet ltac:(lia) eq_refl
           cross_ent_empty_partition).
Defined.

Lemma abc_get_bigrams :
  Corpus.get_ngrams abc_corpus 2 false (steady (1 # 2))
  = Ok (["a"; "b"]%string :: drop 1 (windows 2 abc_sentence),
        {| draws := λ _, 1 # 2; cursor := 1 |}).
Proof. by vm_compute. Qed.

Lemma cross_ent_order_mismatch_witness :
  1 ≤ 2
  ∧ 2 < NgramModel.n (abc_model 3)
  ∧ Corpus.get_ngrams abc_corpus 2 false (steady (1 # 2))
    = Ok (["a"; "b"]%string :: drop 1 (windows 2 abc_sentence),
          {| draws := λ _, 1 # 2; cursor := 1 |})
  ∧ cross_ent (F := real_floats) (abc_model 3) abc_corpus 2 false
      (steady (1 # 2))
    = Raise ValueError.
Proof.
  split; [lia|]. split; [by vm_compute|]. split; [exact abc_get_bigrams|].
  apply (cross_ent_order_mismatch (F := real_floats) (abc_model 3) abc_corpus
           2 false (steady (1 # 2)) _ _ _ ltac:(lia) ltac:(by vm_compute)
           abc_get_bigrams).
Defined.

Lemma cross_ent_untrained_witness :
  1 ≤ 3
  ∧ Corpus.get_ngrams abc_corpus 3 false (steady (1 # 2))
    = Ok (windows 3 abc_sentence, {| draws := λ _, 1 # 2; cursor := 1 |})
  ∧ cross_ent (F := real_floats) (NgramModel.init 3) abc_corpus 3 false
      (steady (1 # 2))
    = Raise TypeError.
Proof.
  split; [lia|]. split; [exact (abc_get_ngrams false)|].
  apply (cross_ent_untrained (F := real_floats) abc_corpus 3 false
           (steady (1 # 2)) _ _ ltac:(lia) (abc_get_ngrams false)).
Defined.

Section EvalOutcomes.
Context {F : FloatOps}.

(** X19: for [n >= 1], [eval(n)] fails in one way only, the
    [ZeroDivisionError] of a partition in which nothing was scored.  The
    header is always printed; a training line is printed with a count of at
    least 1 even when the test partition then raises; and when [eval]
    returns, both counts are at least 1. *)
Theorem eval_outcome (corpus : Corpus.t) (n : Z) (st : rng) :
  1 ≤ n →
  (∃ tr cnt te cnt' st',
     eval corpus n st
     = ([Header n; TrainingLine tr cnt; TestLine te cnt'], Ok st')
     ∧ 1 ≤ cnt ∧ 1 ≤ cnt')
  ∨ (∃ tr cnt,
       eval corpus n st
       = ([Header n; TrainingLine tr cnt], Raise ZeroDivisionError)
       ∧ 1 ≤ cnt)
  ∨ eval corpus n st = ([Header n], Raise ZeroDivisionError).
Proof.
  intros Hn. unfold eval.
  destruct (get_ngrams_total corpus n false st) as [grams Hgrams].
  unfold NgramModel.learn. simpl. rewrite Hgrams. simpl.
  set (model := {| NgramModel.n := n;
                   NgramModel.ngrams := Some (Counter_of grams);
                   NgramModel.alphabet :=
                     Some (list_to_set (Corpus.get_words corpus)) |}).
  set (st1 := snd (Corpus.get_sentences corpus false st)).
  assert (Hpos : ∀ l : list Q, l ≠ [] → 1 ≤ len l).
  { intros [|q l] Hl; [done|]. unfold len. simpl. lia. }
  rewrite (cross_ent_outcome model _ _ corpus n false st1 _ _
             eq_refl eq_refl Hn eq_refl
             (get_ngrams_concat corpus n false st1 Hn)).
  case_decide as Htrain; [by right; right|].
  rewrite (cross_ent_outcome model _ _ corpus n true _ _ _
             eq_refl eq_refl Hn eq_refl
             (get_ngrams_concat corpus n true _ Hn)).
  case_decide as Htest.
  - right. left. eexists _, _. split; [done|]. by apply Hpos.
  - left. eexists _, _, _, _, _. split; [done|]. split; by apply Hpos.
Qed.

End EvalOutcomes.

Lemma eval_outcome_witness :
  1 ≤ 3
  ∧ ((∃ tr cnt te cnt' st',
        eval (F := real_floats) abc_corpus 3 (steady (1 # 2))
        = ([Header 3; TrainingLine tr cnt; TestLine te cnt'], Ok st')
        ∧ 1 ≤ cnt ∧ 1 ≤ cnt')
     ∨ (∃ tr cnt,
          eval (F := real_floats) abc_corpus 3 (steady (1 # 2))
          = ([Header 3; TrainingLine tr cnt], Raise ZeroDivisionError)
          ∧ 1 ≤ cnt)
     ∨ eval (F := real_floats) abc_corpus 3 (steady (1 # 2))
       = ([Header 3], Raise ZeroDivisionError)).
Proof.
  split; [lia|].
  apply (eval_outcome (F := real_floats) abc_corpus 3 (steady (1 # 2))). lia.
Defined.

(** All samples 0.5: the one sentence is a training sentence in both
    training passes and never a test sentence. *)
Example eval_abc :
  eval (F := real_floats) abc_corpus 3 (steady (1 # 2))
  = ([Header 3; TrainingLine abc_score 8], Raise ZeroDivisionError).
Proof. by vm_compute. Qed.

(** ** The choice of the next word *)

Lemma Qlt_bool_true (a b : Q) : Qlt_bool a b = true → (a <= b)%Q.
Proof.
  unfold Qlt_bool. intros H%negb_true_iff.
  apply Qlt_le_weak, Qnot_le_lt. intros Hle.
  apply Qle_bool_iff in Hle. congruence.
Qed.

Lemma Qlt_bool_false (a b : Q) : Qlt_bool a b = false → (b <= a)%Q.
Proof.
  unfold Qlt_bool. intros H%negb_false_iff. by apply Qle_bool_iff.
Qed.

Lemma max_loop_greatest (d : gmap token Q) (keys : list token) :
  (∀ k, k ∈ keys → is_Some (d !! k)) →
  ∀ item val, d !! item = Some val →
    ∃ w q,
      max_loop d keys item val = MaxIs w
      ∧ d !! w = Some q
      ∧ (val <= q)%Q
      ∧ ∀ k q', k ∈ keys → d !! k = Some q' → (q' <= q)%Q.
Proof.
  induction keys as [|k keys IH]; intros Hkeys item val Hitem.
  - exists item, val. split; [done|]. split; [done|].
    split; [apply Qle_refl|]. by intros k q' ?%elem_of_nil.
  - simpl. destruct (Hkeys k) as [v Hv]; [left|]. rewrite Hv.
    assert (Hrest : ∀ k', k' ∈ keys → is_Some (d !! k'))
      by (intros; apply Hkeys; by right).
    destruct (Qlt_bool val v) eqn:Hcmp.
    + destruct (IH Hrest k v Hv) as (w & q & Hmax & Hw & Hle & Hall).
      exists w, q. split; [done|]. split; [done|]. split.
      * eapply Qle_trans; [by apply Qlt_bool_true|done].
      * intros k' q' [->|Hin]%elem_of_cons Hq'; [|by eapply Hall].
        assert (q' = v) as -> by congruence. done.
    + destruct (IH Hrest item val Hitem) as (w & q & Hmax & Hw & Hle & Hall).
      exists w, q. split; [done|]. split; [done|]. split; [done|].
      intros k' q' [->|Hin]%elem_of_cons Hq'; [|by eapply Hall].
      assert (q' = v) as -> by congruence.
      eapply Qle_trans; [by apply Qlt_bool_false|done].
Qed.

Lemma lists_keys_nil (d : gmap token Q) : lists_keys d [] → d = ∅.
Proof.
  intros Hkeys. apply map_eq. intros k. rewrite lookup_empty.
  destruct (d !! k) as [v|] eqn:E; [|done].
  assert (Hin : k ∈ []) by (apply Hkeys; by eexists).
  by apply elem_of_nil in Hin.
Qed.

Lemma pred_next_word_greatest (d : gmap token Q) (keys : list token) :
  lists_keys d keys → d ≠ ∅ →
  ∃ w q,
    pred_next_word d keys = MaxIs w
    ∧ d !! w = Some q
    ∧ ∀ w' q', d !! w' = Some q' → (q' <= q)%Q.
Proof.
  intros Hkeys Hne. unfold pred_next_word, max_by_value.
  destruct keys as [|item keys]; [by apply lists_keys_nil in Hkeys|].
  destruct (proj1 (Hkeys item)) as [val Hval]; [left|]. rewrite Hval.
  destruct (max_loop_greatest d keys) with (item := item) (val := val)
    as (w & q & Hmax & Hw & Hle & Hall); [|done|].
  { intros k Hk. apply Hkeys. by right. }
  exists w, q. split; [done|]. split; [done|].
  intros w' q' Hq'.
  assert (Hin : w' ∈ item :: keys) by (apply Hkeys; by eexists).
  apply elem_of_cons in Hin as [->|Hin].
  - assert (q' = val) as -> by congruence. done.
  - by eapply Hall.
Qed.

Lemma pred_next_word_raises (d : gmap token Q) (keys : list token) :
  lists_keys d keys →
  (pred_next_word d keys = EmptySequence ↔ d = ∅)
  ∧ pred_next_word d keys ≠ KeyError.
Proof.
  intros Hkeys. destruct (decide (d = ∅)) as [->|Hne].
  - destruct keys as [|k keys]; [done|].
    destruct (proj1 (Hkeys k)) as [v Hv]; [left|].
    by rewrite lookup_empty in Hv.
  - destruct (pred_next_word_greatest d keys Hkeys Hne) as (w & q & -> & _).
    split; [|done]. split; [done|]. by intros ->.
Qed.

Lemma singleton_lists_keys :
  lists_keys {["c"%string := 1%Q]} ["c"%string].
Proof.
  intros k. rewrite list_elem_of_singleton. split.
  - intros ->. by eexists.
  - intros [v Hv]. by apply lookup_singleton_Some in Hv as [<- _].
Qed.

Lemma singleton_nonempty : ({["c"%string := 1%Q]} : gmap token Q) ≠ ∅.
Proof.
  intros E. apply (f_equal (λ m : gmap token Q, m !! "c"%string)) in E.
  by vm_compute in E.
Qed.

(** X20: on a mapping that is not empty, the cell that picks the next
    word returns a key of the mapping whose probability no other key
    exceeds, in whatever order the keys are listed. *)
Theorem pred_next_word_most_probable (d : gmap token Q) (keys : list token) :
  lists_keys d keys → d ≠ ∅ →
  ∃ w q,
    pred_next_word d keys = MaxIs w
    ∧ d !! w = Some q
    ∧ ∀ w' q', d !! w' = Some q' → (q' <= q)%Q.
Proof. apply pred_next_word_greatest. Qed.

Lemma pred_next_word_most_probable_witness :
  lists_keys {["c"%string := 1%Q]} ["c"%string]
  ∧ ({["c"%string := 1%Q]} : gmap token Q) ≠ ∅
  ∧ ∃ w q,
      pred_next_word {["c"%string := 1%Q]} ["c"%string] = MaxIs w
      ∧ ({["c"%string := 1%Q]} : gmap token Q) !! w = Some q
      ∧ ∀ w' q', ({["c"%string := 1%Q]} : gmap token Q) !! w' = Some q' →
          (q' <= q)%Q.
Proof.
  split; [exact singleton_lists_keys|]. split; [exact singleton_nonempty|].
  apply (pred_next_word_most_probable {["c"%string := 1%Q]} ["c"%string]
           singleton_lists_keys singleton_nonempty).
Defined.

(** X21: the cell that picks the next word raises the [ValueError] of
    [max] exactly when the mapping is empty, which is what [predict] returns
    for a context it has not seen; it never raises [KeyError]. *)
Theorem pred_next_word_empty (d : gmap token Q) (keys : list token) :
  lists_keys d keys →
  (pred_next_word d keys = EmptySequence ↔ d = ∅)
  ∧ pred_next_word d keys ≠ KeyError.
Proof. apply pred_next_word_raises. Qed.

Lemma pred_next_word_empty_witness :
  lists_keys ∅ []
  ∧ (pred_next_word ∅ [] = EmptySequence ↔ (∅ : gmap token Q) = ∅)
  ∧ pred_next_word ∅ [] ≠ KeyError.
Proof.
  assert (Hkeys : lists_keys ∅ []).
  { intros k. rewrite lookup_empty. split; [by intros ?%elem_of_nil|].
    by intros []%is_Some_None. }
  split; [exact Hkeys|]. apply (pred_next_word_empty ∅ [] Hkeys).
Defined.

Lemma relative_frequency_le_inv (kept : gmap token Z) (k k' : Z) :
  0 < sum_counts kept →
  (relative_frequency kept k' <= relative_frequency kept k)%Q → k' ≤ k.
Proof.
  intros Hs Hle. unfold relative_frequency, Qdiv in Hle.
  apply Qmult_le_r in Hle; [by rewrite Zle_Qle|].
  apply Qinv_lt_0_compat. by apply inject_Z_pos.
Qed.

(** X22: [predict] followed by the cell that picks the next word.  For a
    trained model and a context of at least [n - 1] tokens, the word that is
    picked is a word of the vocabulary whose n-gram after the context
    [predict] keeps has a positive count, and no word of the vocabulary has
    a higher count there. *)
Theorem next_word_highest_count (self : NgramModel.t) c a
    (context : list token) (d : gmap token Q) (keys : list token)
    (w : token) :
  NgramModel.ngrams self = Some c →
  NgramModel.alphabet self = Some a →
  NgramModel.n self - 1 ≤ len context →
  fst (NgramModel.predict self context) = Ok d →
  lists_keys d keys →
  pred_next_word d keys = MaxIs w →
  let context' := NgramModel.truncate (NgramModel.n self) context in
  w ∈ a
  ∧ 0 < count_of c (context' ++ [w])
  ∧ ∀ w', w' ∈ a → count_of c (context' ++ [w']) ≤ count_of c (context' ++ [w]).
Proof.
  intros Hc Ha Hlen Hd Hkeys Hmax context'.
  destruct (predict_trained self c a context Hc Ha Hlen)
    as (kept & Hkept & Hall & Hd').
  fold context' in Hkept.
  rewrite Hd' in Hd. injection Hd as <-.
  assert (Hne : relative_frequency kept <$> kept ≠ ∅).
  { intros E.
    apply (proj1 (pred_next_word_raises _ keys Hkeys)) in E. congruence. }
  destruct (pred_next_word_greatest _ keys Hkeys Hne)
    as (w0 & q & Hw0 & Hq & Hbest).
  rewrite Hw0 in Hmax. injection Hmax as ->.
  apply lookup_fmap_Some in Hq as (k & <- & Hk).
  assert (0 < sum_counts kept).
  { apply sum_counts_pos; [done|]. intros ->. by rewrite lookup_empty in Hk. }
  apply Hkept in Hk as Hk'. destruct Hk' as (Hw & <- & Hpos).
  split; [done|]. split; [done|].
  intros w' Hw'.
  destruct (Z.lt_ge_cases 0 (count_of c (context' ++ [w']))) as [Hpos'|]; [|lia].
  assert (Hk'' : kept !! w' = Some (count_of c (context' ++ [w'])))
    by (by apply Hkept).
  apply (relative_frequency_le_inv kept); [done|].
  apply (Hbest w'). by rewrite lookup_fmap, Hk''.
Qed.

Lemma next_word_highest_count_witness :
  NgramModel.ngrams (abc_model 3) = Some (Counter_of (windows 3 abc_sentence))
  ∧ NgramModel.alphabet (abc_model 3) = Some (list_to_set abc_sentence)
  ∧ NgramModel.n (abc_model 3) - 1 ≤ len ["a"; "b"]%string
  ∧ fst (NgramModel.predict (abc_model 3) ["a"; "b"]%string)
    = Ok {["c"%string := 1%Q]}
  ∧ lists_keys {["c"%string := 1%Q]} ["c"%string]
  ∧ pred_next_word {["c"%string := 1%Q]} ["c"%string] = MaxIs "c"%string
  ∧ ("c"%string ∈ (list_to_set abc_sentence : gset token))
  ∧ 0 < count_of (Counter_of (windows 3 abc_sentence))
          (NgramModel.truncate (NgramModel.n (abc_model 3)) ["a"; "b"]%string
           ++ ["c"%string])
  ∧ ∀ w', w' ∈ (list_to_set abc_sentence : gset token) →
      count_of (Counter_of (windows 3 abc_sentence))
        (NgramModel.truncate (NgramModel.n (abc_model 3)) ["a"; "b"]%string
         ++ [w'])
      ≤ count_of (Counter_of (windows 3 abc_sentence))
          (NgramModel.truncate (NgramModel.n (abc_model 3)) ["a"; "b"]%string
           ++ ["c"%string]).
Proof.
  assert (Hd : fst (NgramModel.predict (abc_model 3) ["a"; "b"]%string)
               = Ok {["c"%string := 1%Q]}) by (by vm_compute).
  assert (Hmax : pred_next_word {["c"%string := 1%Q]} ["c"%string]
                 = MaxIs "c"%string) by (by vm_compute).
  split; [exact abc_model_ngrams|]. split; [exact abc_model_alphabet|].
  split; [by vm_compute|]. split; [exact Hd|].
  split; [exact singleton_lists_keys|]. split; [exact Hmax|].
  apply (next_word_highest_count (abc_model 3) _ _ ["a"; "b"]%string _ _ _
           abc_model_ngrams abc_model_alphabet ltac:(by vm_compute) Hd
           singleton_lists_keys Hmax).
Defined.

Lemma predict_relative_frequencies_last_tokens_witness :
  NgramModel.ngrams (abc_model 3) = Some (Counter_of (windows 3 abc_sentence))
  ∧ NgramModel.alphabet (abc_model 3) = Some (list_to_set abc_sentence)
  ∧ NgramModel.n (abc_model 3) - 1 ≤ len ["x"; "a"; "b"]%string
  ∧ (2 ≤ NgramModel.n (abc_model 3)
     ∨ len ["x"; "a"; "b"]%string = NgramModel.n (abc_model 3) - 1)
  ∧ ∃ kept d,
      kept_counts (Counter_of (windows 3 abc_sentence))
        (list_to_set abc_sentence) ["a"; "b"]%string kept
      ∧ fst (NgramModel.predict (abc_model 3) ["x"; "a"; "b"]%string) = Ok d
      ∧ (∀ w, is_Some (d !! w)
              ↔ w ∈ (list_to_set abc_sentence : gset token)
                ∧ 0 < count_of (Counter_of (windows 3 abc_sentence))
                        (["a"; "b"]%string ++ [w]))
      ∧ (∀ w q, d !! w = Some q →
           q = relative_frequency kept
                 (count_of (Counter_of (windows 3 abc_sentence))
                    (["a"; "b"]%string ++ [w]))
           ∧ (0 < q)%Q
           ∧ count_of (Counter_of (windows 3 abc_sentence))
               (["a"; "b"]%string ++ [w]) ≠ 0).
Proof.
  split; [exact abc_model_ngrams|]. split; [exact abc_model_alphabet|].
  split; [by vm_compute|]. split; [left; by vm_compute|].
  apply (predict_relative_frequencies_last_tokens (abc_model 3) _ _
           ["x"; "a"; "b"]%string abc_model_ngrams abc_model_alphabet);
    [by vm_compute|left; by vm_compute].
Defined.
